(** * EntiDB Sync development setup script ([setup.py]): model and properties

    The script probes the Dart SDK version, enforces a minimum version and
    runs [dart pub get] in every package of the monorepo.

    Modelling conventions.
    - Text ([str]) is a list of characters; a character is a code point
      below 256, so the character classes below are the restrictions of
      Python's [\d], [\s] and of the white space accepted by [int()] to
      that range.
    - [int()] rejects a literal with more digits than the interpreter's
      limit, which is taken at its default of 4300 digits.
    - Exceptions are explicit: a computation returns a value or raises.
    - The operating system is a state ([World]) threaded through every
      call; console output and the sequence of spawned commands are
      recorded next to it. *)

From Stdlib Require Import String Ascii ZArith Bool Lia Arith List.
Import ListNotations.
Local Open Scope Z_scope.

(** ** Text *)

Definition text := list ascii.

Definition txt (s : string) : text := list_ascii_of_string s.

Definition code (c : ascii) : nat := nat_of_ascii c.

(** [\d] of the [re] module. *)
Definition is_digit (c : ascii) : bool :=
  (48 <=? code c)%nat && (code c <=? 57)%nat.

(** [\s] of the [re] module on [str] patterns. *)
Definition is_space (c : ascii) : bool :=
  let n := code c in
  ((9 <=? n)%nat && (n <=? 13)%nat) || ((28 <=? n)%nat && (n <=? 32)%nat)
  || (n =? 133)%nat || (n =? 160)%nat.

(** White space skipped by [int()] around the literal. *)
Definition is_int_space (c : ascii) : bool :=
  let n := code c in
  ((9 <=? n)%nat && (n <=? 13)%nat) || (n =? 32)%nat
  || (n =? 133)%nat || (n =? 160)%nat.

Definition digit_value (c : ascii) : Z := Z.of_nat (code c) - 48.

Definition dot : ascii := "."%char.
Definition underscore : ascii := "_"%char.
Definition plus_sign : ascii := "+"%char.
Definition minus_sign : ascii := "-"%char.

(** ** Exceptions *)

Inductive exn : Type :=
| FileNotFoundError
| PermissionError
| NotADirectoryError
| OSError
| UnicodeDecodeError
| ValueError
| IndexError.

Inductive outcome (A : Type) : Type :=
| Ret (a : A)
| Raise (e : exn).
Arguments Ret {A} a.
Arguments Raise {A} e.

Definition exn_eqb (a b : exn) : bool :=
  match a, b with
  | FileNotFoundError, FileNotFoundError
  | PermissionError, PermissionError
  | NotADirectoryError, NotADirectoryError
  | OSError, OSError
  | UnicodeDecodeError, UnicodeDecodeError
  | ValueError, ValueError
  | IndexError, IndexError => true
  | _, _ => false
  end.

(** ** [str.split(".")] *)

Fixpoint split_dot (s : text) : list text :=
  match s with
  | [] => [[]]
  | c :: s' =>
      if Ascii.eqb c dot then [] :: split_dot s'
      else match split_dot s' with
           | h :: t => (c :: h) :: t
           | [] => [[c]]
           end
  end.

(** ** [int(x)] on a [str], base ten *)

Fixpoint drop_while (p : ascii -> bool) (s : text) : text :=
  match s with
  | c :: s' => if p c then drop_while p s' else s
  | [] => []
  end.

(** The default of [sys.get_int_max_str_digits()]. *)
Definition int_max_str_digits : Z := 4300.

(** The digit loop after the first digit: [acc] is the value read so
    far, [cnt] the number of digits read so far, [prev_us] tells
    whether the previous character was an underscore.  Two underscores
    in a row and a trailing underscore are rejected. *)
Fixpoint scan_digits (acc cnt : Z) (prev_us : bool) (s : text) : option (Z * Z * text) :=
  match s with
  | c :: s' =>
      if is_digit c then scan_digits (10 * acc + digit_value c) (cnt + 1) false s'
      else if Ascii.eqb c underscore then
             if prev_us then None else scan_digits acc cnt true s'
           else if prev_us then None else Some (acc, cnt, s)
  | [] => if prev_us then None else Some (acc, cnt, [])
  end.

(** The literal may not start with an underscore and needs a digit. *)
Definition scan_literal (s : text) : option (Z * Z * text) :=
  match s with
  | c :: s' => if is_digit c then scan_digits (digit_value c) 1 false s' else None
  | [] => None
  end.

Definition scan_sign (s : text) : bool * text :=
  match s with
  | c :: s' =>
      if Ascii.eqb c plus_sign then (false, s')
      else if Ascii.eqb c minus_sign then (true, s')
      else (false, s)
  | [] => (false, [])
  end.

(** Every way in which the text fails to be a literal, too many digits
    included, raises [ValueError]. *)
Definition py_int (s : text) : outcome Z :=
  let (neg, body) := scan_sign (drop_while is_int_space s) in
  match scan_literal body with
  | Some (n, cnt, rest) =>
      if cnt >? int_max_str_digits then Raise ValueError
      else
        match drop_while is_int_space rest with
        | [] => Ret (if neg then - n else n)
        | _ :: _ => Raise ValueError
        end
  | None => Raise ValueError
  end.

(** ** [version_tuple]

    [tuple(int(x) for x in version.split("."))]: the components are
    converted from left to right and the first failure propagates. *)

Fixpoint tuple_of_ints (l : list text) : outcome (list Z) :=
  match l with
  | [] => Ret []
  | x :: l' =>
      match py_int x with
      | Ret n =>
          match tuple_of_ints l' with
          | Ret t => Ret (n :: t)
          | Raise e => Raise e
          end
      | Raise e => Raise e
      end
  end.

Definition version_tuple (version : text) : outcome (list Z) :=
  tuple_of_ints (split_dot version).

(** ** Tuple comparison

    Python's [<] on tuples: the first pair of unequal elements decides;
    when one tuple is a prefix of the other the shorter one is smaller. *)

Fixpoint tuple_lt (a b : list Z) : bool :=
  match a, b with
  | [], [] => false
  | [], _ :: _ => true
  | _ :: _, [] => false
  | x :: a', y :: b' => if x =? y then tuple_lt a' b' else x <? y
  end.

Definition min_version : list Z := [3; 10; 1].

(** The test [main] performs is [version_tuple(v) < min_version]; the
    version is accepted when the test is false. *)
Definition is_at_least (actual minimum : list Z) : bool :=
  negb (tuple_lt actual minimum).

(** ** [re.search(r"Dart SDK version:\s*(\d+\.\d+\.\d+)", output)]

    The pattern is matched at successive start positions, leftmost
    first.  At one position every quantifier is greedy; the character
    that has to follow a run never belongs to the class of the run, so
    giving characters back cannot turn a failure into a success and the
    longest runs are the ones the backtracking matcher settles on. *)

Definition version_label : text := txt "Dart SDK version:".

Fixpoint strip_prefix (p s : text) : option text :=
  match p, s with
  | [], _ => Some s
  | a :: p', b :: s' => if Ascii.eqb a b then strip_prefix p' s' else None
  | _ :: _, [] => None
  end.

(** Longest prefix of characters in the class, and what follows it. *)
Fixpoint span (p : ascii -> bool) (s : text) : text * text :=
  match s with
  | c :: s' => if p c then let (a, b) := span p s' in (c :: a, b) else ([], s)
  | [] => ([], [])
  end.

(** [\d+] *)
Definition digits1 (s : text) : option (text * text) :=
  match span is_digit s with
  | ([], _) => None
  | (d, r) => Some (d, r)
  end.

(** [\.] *)
Definition expect_dot (s : text) : option text :=
  match s with
  | c :: r => if Ascii.eqb c dot then Some r else None
  | [] => None
  end.

(** [(\d+\.\d+\.\d+)]: the text of the group. *)
Definition match_version (s : text) : option text :=
  match digits1 s with
  | Some (d1, r1) =>
      match expect_dot r1 with
      | Some r1' =>
          match digits1 r1' with
          | Some (d2, r2) =>
              match expect_dot r2 with
              | Some r2' =>
                  match digits1 r2' with
                  | Some (d3, _) => Some (d1 ++ dot :: d2 ++ dot :: d3)
                  | None => None
                  end
              | None => None
              end
          | None => None
          end
      | None => None
      end
  | None => None
  end.

(** The whole pattern anchored at the start of [s]; the result is
    [match.group(1)]. *)
Definition match_here (s : text) : option text :=
  match strip_prefix version_label s with
  | Some r => match_version (snd (span is_space r))
  | None => None
  end.

Fixpoint re_search (s : text) : option text :=
  match match_here s with
  | Some v => Some v
  | None =>
      match s with
      | [] => None
      | _ :: s' => re_search s'
      end
  end.

(** ** Console output

    One constructor per [print] of the script; the arguments are the
    interpolated values. *)

Definition Path := list text.

Inductive line : Type :=
| L_title
| L_rule
| L_platform
| L_blank
| L_checking
| L_sdk_not_found
| L_found (v : text)
| L_warn_version (v : text)
| L_upgrade_hint
| L_installing
| L_package (name : text)
| L_dir_not_found (p : Path)
| L_failed (stderr : text)
| L_installed
| L_complete
| L_next_steps
| L_next_doc
| L_next_tests
| L_next_dev
| L_errors.

(** A line that reports the failure of one package. *)
Definition is_failure_line (l : line) : bool :=
  match l with
  | L_dir_not_found _ | L_failed _ => true
  | _ => false
  end.

(** ** The script *)

Definition command_result : Type := Z * text * text.

(** What [subprocess.run] does: the process is started and runs to its
    end, or starting it raises. *)
Definition spawn_result : Type := outcome command_result.

Definition call : Type := list text * option Path.

Definition dart_version_cmd : list text := [txt "dart"; txt "--version"].
Definition pub_get_cmd : list text := [txt "dart"; txt "pub"; txt "get"].

Definition packages : list text :=
  [txt "entidb_sync_protocol"; txt "entidb_sync_client"; txt "entidb_sync_server"].

Fixpoint text_eqb (a b : text) : bool :=
  match a, b with
  | [], [] => true
  | x :: a', y :: b' => Ascii.eqb x y && text_eqb a' b'
  | _, _ => false
  end.

Fixpoint cmd_eqb (a b : list text) : bool :=
  match a, b with
  | [], [] => true
  | x :: a', y :: b' => text_eqb x y && cmd_eqb a' b'
  | _, _ => false
  end.


(** The state of a run: the operating system, the lines printed so
    far and the commands spawned so far. *)
Record state (World : Type) : Type := mkState {
  world : World;
  console : list line;
  spawned : list call
}.
Arguments mkState {World} _ _ _.
Arguments world {World} _.
Arguments console {World} _.
Arguments spawned {World} _.

(** Computations: they read and update the state and return or raise. *)
Definition M (World A : Type) : Type :=
  state World -> outcome A * state World.

Definition ret {World A} (a : A) : M World A := fun st => (Ret a, st).

Definition raise {World A} (e : exn) : M World A := fun st => (Raise e, st).

Definition lift {World A} (o : outcome A) : M World A := fun st => (o, st).

Definition bind {World A B} (m : M World A) (k : A -> M World B) : M World B :=
  fun st =>
    match m st with
    | (Ret a, st') => k a st'
    | (Raise e, st') => (Raise e, st')
    end.

(** [try: m except e: h] *)
Definition try_except {World A} (m : M World A) (e : exn) (h : M World A) : M World A :=
  fun st =>
    match m st with
    | (Ret a, st') => (Ret a, st')
    | (Raise e', st') => if exn_eqb e' e then h st' else (Raise e', st')
    end.

Definition print {World} (l : line) : M World unit :=
  fun st => (Ret tt, mkState (world st) (console st ++ [l]) (spawned st)).

Declare Scope script_scope.
Delimit Scope script_scope with script.
Notation "x <- m ;; k" := (bind m (fun x => k))
  (at level 61, m at next level, right associativity) : script_scope.
Notation "m ;; k" := (bind m (fun _ => k))
  (at level 61, right associativity) : script_scope.
Local Open Scope script_scope.

(** What the script needs from its surroundings.  [subprocess_run] is
    [subprocess.run(cmd, cwd=cwd, capture_output=True, text=True)]:
    it yields the exit code and the two captured streams, or raises,
    be it because the process cannot be started or because its output
    cannot be decoded.  [path_exists] is [Path.exists()]: it tells
    whether the path exists, or raises when the answer cannot be had,
    for instance for want of permission. *)
Record Env : Type := mkEnv {
  World : Type;
  subprocess_run : list text -> option Path -> World -> spawn_result * World;
  path_exists : Path -> World -> outcome bool;
  os_chdir : Path -> World -> World;
  repo_root : Path
}.

Section Setup.

Variable E : Env.

Definition spawn (cmd : list text) (cwd : option Path) : M (World E) command_result :=
  fun st =>
    let (r, w) := subprocess_run E cmd cwd (world st) in
    (r, mkState w (console st) (spawned st ++ [(cmd, cwd)])).

Definition exists_ (p : Path) : M (World E) bool :=
  fun st => (path_exists E p (world st), st).

Definition chdir (p : Path) : M (World E) unit :=
  fun st => (Ret tt, mkState (os_chdir E p (world st)) (console st) (spawned st)).

(** [cmd[0]] *)
Definition first_arg (cmd : list text) : M (World E) text :=
  match cmd with
  | c :: _ => ret c
  | [] => raise IndexError
  end.

Definition run_command (cmd : list text) (cwd : option Path) : M (World E) command_result :=
  try_except
    (spawn cmd cwd)
    FileNotFoundError
    (c <- first_arg cmd ;;
     ret (1, [], txt "Command not found: " ++ c)).

Definition check_dart_version : M (World E) (option text) :=
  r <- run_command dart_version_cmd None ;;
  let '(code, stdout, stderr) := r in
  if negb (code =? 0) then ret None
  else
    let output := stdout ++ stderr in
    match re_search output with
    | Some v => ret (Some v)
    | None => ret None
    end.

Definition install_package_deps (package_path : Path) : M (World E) bool :=
  r <- run_command pub_get_cmd (Some package_path) ;;
  let '(code, stdout, stderr) := r in
  if negb (code =? 0) then
    print (L_failed stderr) ;;
    ret false
  else ret true.

(** [repo_root / "packages" / package] *)
Definition package_path_of (package : text) : Path :=
  repo_root E ++ [txt "packages"; package].

(** The [for package in packages] loop; [success] is the flag the
    loop updates. *)
Fixpoint install_loop (pkgs : list text) (success : bool) : M (World E) bool :=
  match pkgs with
  | [] => ret success
  | package :: rest =>
      let package_path := package_path_of package in
      ex <- exists_ package_path ;;
      if negb ex then
        print (L_package package) ;;
        print (L_dir_not_found package_path) ;;
        install_loop rest false
      else
        print (L_package package) ;;
        ok <- install_package_deps package_path ;;
        if ok then
          print L_installed ;;
          install_loop rest success
        else install_loop rest false
  end.

(** Everything [main] does before the version probe. *)
Definition prelude : M (World E) unit :=
  print L_title ;;
  print L_rule ;;
  print L_platform ;;
  print L_blank ;;
  chdir (repo_root E) ;;
  print L_checking.

Definition main : M (World E) Z :=
  prelude ;;
  dart_version <- check_dart_version ;;
  match dart_version with
  | None =>
      print L_sdk_not_found ;;
      ret 1
  | Some v =>
      print (L_found v) ;;
      t <- lift (version_tuple v) ;;
      if tuple_lt t min_version then
        print (L_warn_version v) ;;
        print L_upgrade_hint ;;
        ret 1
      else
        print L_blank ;;
        print L_installing ;;
        print L_blank ;;
        success <- install_loop packages true ;;
        print L_blank ;;
        if success then
          print L_complete ;;
          print L_blank ;;
          print L_next_steps ;;
          print L_next_doc ;;
          print L_next_tests ;;
          print L_next_dev ;;
          ret 0
        else
          print L_errors ;;
          ret 1
  end.

End Setup.

(** * Specification vocabulary *)

(** A version component as the specification understands it: a
    non-empty run of decimal digits. *)
Definition digit_run (c : text) : Prop :=
  c <> [] /\ Forall (fun x => is_digit x = true) c.

(** Value of a run of decimal digits. *)
Definition decimal_from (acc : Z) (ds : text) : Z :=
  fold_left (fun a c => 10 * a + digit_value c) ds acc.

Definition decimal (ds : text) : Z := decimal_from 0 ds.

(** A valid dotted version string. *)
Definition valid_version (v : text) : Prop :=
  Forall digit_run (split_dot v).

(** A component that is not longer than [int()] allows. *)
Definition within_limit (c : text) : Prop :=
  Z.of_nat (length c) <= int_max_str_digits.

(** A version string without an overlong component. *)
Definition short_components (v : text) : Prop :=
  Forall within_limit (split_dot v).

(** The usual order on versions of equal length: the first component
    in which they differ decides, compared as numbers. *)
Inductive numeric_lt : list Z -> list Z -> Prop :=
| numeric_lt_here x y a b : x < y -> length a = length b -> numeric_lt (x :: a) (y :: b)
| numeric_lt_next x a b : numeric_lt a b -> numeric_lt (x :: a) (x :: b).

(** Digits separated by single underscores, as [int()] accepts them. *)
Inductive digit_groups : text -> Prop :=
| dg_last d : is_digit d = true -> digit_groups [d]
| dg_digit d s : is_digit d = true -> digit_groups s -> digit_groups (d :: s)
| dg_under d s : is_digit d = true -> digit_groups s -> digit_groups (d :: underscore :: s).

Definition int_spaces (s : text) : Prop :=
  Forall (fun x => is_int_space x = true) s.

(** Value of an accepted literal: its digits read in base ten, negated
    when the literal carries a minus sign. *)
Definition literal_value (s : text) : Z :=
  let n := decimal (filter is_digit s) in
  if existsb (Ascii.eqb minus_sign) s then - n else n.

Definition sign_text (s : text) : Prop :=
  s = [] \/ s = [plus_sign] \/ s = [minus_sign].

(** The literals [int()] accepts: white space, an optional sign, digit
    groups with no more digits than the limit, white space. *)
Definition int_literal (s : text) : Prop :=
  exists l sg b r,
    s = l ++ sg ++ b ++ r /\ int_spaces l /\ sign_text sg /\ digit_groups b /\ int_spaces r /\
    Z.of_nat (length (filter is_digit b)) <= int_max_str_digits.

Definition spaces (s : text) : Prop :=
  Forall (fun x => is_space x = true) s.

(** The text of the group: three digit runs separated by dots. *)
Definition version_string (v : text) : Prop :=
  exists d1 d2 d3,
    v = d1 ++ dot :: d2 ++ dot :: d3 /\ digit_run d1 /\ digit_run d2 /\ digit_run d3.

(** The pattern matches a prefix of [s], the group being [v]. *)
Definition matches_at (s v : text) : Prop :=
  exists ws post,
    s = version_label ++ ws ++ v ++ post /\ spaces ws /\ version_string v.

(** The pattern matches somewhere in [s]. *)
Definition has_match (s : text) : Prop :=
  exists pre suf v, s = pre ++ suf /\ matches_at suf v.

Definition not_digit_first (s : text) : Prop :=
  match s with
  | c :: _ => is_digit c = false
  | [] => True
  end.

(** The match a greedy matcher reports at the start of [s]: the last
    digit run is as long as it can be. *)
Definition greedy_match_at (s v : text) : Prop :=
  exists ws post,
    s = version_label ++ ws ++ v ++ post /\ spaces ws /\ version_string v /\
    not_digit_first post.

(** [v] is the group of the first match in [s]: the pattern matches
    at the end of [pre] and at no earlier position. *)
Definition first_match (s v : text) : Prop :=
  exists pre suf,
    s = pre ++ suf /\ greedy_match_at suf v /\
    forall pre' suf' v',
      s = pre' ++ suf' -> (length pre' < length pre)%nat -> ~ matches_at suf' v'.

(** [".".join(cs)] *)
Fixpoint join_dot (cs : list text) : text :=
  match cs with
  | [] => []
  | [c] => c
  | c :: rest => c ++ dot :: join_dot rest
  end.

Definition no_dot (c : text) : Prop := ~ In dot c.

Definition zero : ascii := "0"%char.

(** [a] is [b] with some elements left out, the order kept. *)
Inductive subsequence {A : Type} : list A -> list A -> Prop :=
| subseq_nil : subsequence [] []
| subseq_skip x a b : subsequence a b -> subsequence a (x :: b)
| subseq_keep x a b : subsequence a b -> subsequence (x :: a) (x :: b).

(** The installer run of one package. *)
Definition installer_call (E : Env) (package : text) : call :=
  (pub_get_cmd, Some (package_path_of E package)).

(** What the loop prints for a package whose installation succeeds. *)
Definition installed_lines (package : text) : list line :=
  [L_package package; L_installed].

(** What the loop prints for a package without a directory. *)
Definition missing_lines (E : Env) (package : text) : list line :=
  [L_package package; L_dir_not_found (package_path_of E package)].

Definition prelude_lines : list line :=
  [L_title; L_rule; L_platform; L_blank; L_checking].

Definition success_lines : list line :=
  [L_blank; L_complete; L_blank; L_next_steps; L_next_doc; L_next_tests; L_next_dev].

(** The lines the loop can print. *)
Definition is_loop_line (l : line) : bool :=
  match l with
  | L_package _ | L_dir_not_found _ | L_failed _ | L_installed => true
  | _ => false
  end.

(** The lines that announce exit status 1. *)
Definition is_error_verdict (l : line) : bool :=
  match l with
  | L_sdk_not_found | L_warn_version _ | L_errors => true
  | _ => false
  end.

Definition is_complete_line (l : line) : bool :=
  match l with
  | L_complete => true
  | _ => false
  end.

(** How the loop dealt with one package: its directory was missing,
    or the installer ran and ended with an exit code and an error
    text. *)
Inductive attempt : Type :=
| Missing (package : text)
| Ran (package : text) (code : Z) (stderr : text).

Definition attempt_package (a : attempt) : text :=
  match a with
  | Missing p | Ran p _ _ => p
  end.

(** The attempts that make the run fail: a missing directory and an
    exit code other than zero. *)
Definition attempt_failed (a : attempt) : bool :=
  match a with
  | Missing _ => true
  | Ran _ code _ => negb (code =? 0)
  end.

Definition attempt_lines (E : Env) (a : attempt) : list line :=
  match a with
  | Missing p => missing_lines E p
  | Ran p code err => if code =? 0 then installed_lines p else [L_package p; L_failed err]
  end.

Definition attempt_calls (E : Env) (a : attempt) : list call :=
  match a with
  | Missing _ => []
  | Ran p _ _ => [installer_call E p]
  end.

(** [loop_run E pkgs w atts w']: from [w] on, the directory tests and
    the installer runs of the packages, taken one after the other, give
    the attempts [atts] and lead to [w'].  A directory that is not
    there is a missing one; otherwise the installer is started in it
    and its exit code and error text are the attempt, exit code 1 with
    the message of [run_command] when the executable is not found. *)
Inductive loop_run (E : Env) : list text -> World E -> list attempt -> World E -> Prop :=
| loop_run_nil w : loop_run E [] w [] w
| loop_run_missing p rest w atts w' :
    path_exists E (package_path_of E p) w = Ret false ->
    loop_run E rest w atts w' ->
    loop_run E (p :: rest) w (Missing p :: atts) w'
| loop_run_ran p rest w code out err w1 atts w' :
    path_exists E (package_path_of E p) w = Ret true ->
    subprocess_run E pub_get_cmd (Some (package_path_of E p)) w
      = (Ret (code, out, err), w1) ->
    loop_run E rest w1 atts w' ->
    loop_run E (p :: rest) w (Ran p code err :: atts) w'
| loop_run_not_found p rest w w1 atts w' :
    path_exists E (package_path_of E p) w = Ret true ->
    subprocess_run E pub_get_cmd (Some (package_path_of E p)) w
      = (Raise FileNotFoundError, w1) ->
    loop_run E rest w1 atts w' ->
    loop_run E (p :: rest) w (Ran p 1 (txt "Command not found: dart") :: atts) w'.

(** For package [p] in [w], the directory test raises [e], or the
    directory is there and the start of the installer raises [e],
    which [run_command] does not catch. *)
Definition raises_at (E : Env) (p : text) (w : World E) (e : exn) : Prop :=
  path_exists E (package_path_of E p) w = Raise e \/
  (path_exists E (package_path_of E p) w = Ret true /\
   fst (subprocess_run E pub_get_cmd (Some (package_path_of E p)) w) = Raise e /\
   e <> FileNotFoundError).



(** * Example environments *)

(** An environment without state of its own: the version query always
    has the same result, the installer's result depends on the package
    directory it is started in, and [present] tells which directories
    exist. *)
Definition demo_env (version_query : spawn_result)
  (installer : Path -> spawn_result) (present : Path -> bool) : Env :=
  mkEnv unit
    (fun cmd cwd w =>
       (if cmd_eqb cmd dart_version_cmd then version_query
        else match cwd with
             | Some p => installer p
             | None => Raise FileNotFoundError
             end, w))
    (fun p _ => Ret (present p))
    (fun _ w => w)
    [txt "repo"].

Definition demo_start : state unit := mkState tt [] [].

Definition banner (v : text) : spawn_result :=
  Ret (0, txt "Dart SDK version: " ++ v ++ txt " (stable) on linux_x64", []).

(** The second package directory is missing, the installer succeeds. *)
Definition env_missing_dir : Env :=
  demo_env (banner (txt "3.10.5"))
    (fun _ => Ret (0, txt "Got dependencies!", []))
    (fun p => negb (cmd_eqb p [txt "repo"; txt "packages"; txt "entidb_sync_client"])).

(** An SDK older than the minimum. *)
Definition env_old_sdk : Env :=
  demo_env (banner (txt "3.9.9")) (fun _ => Ret (0, [], [])) (fun _ => true).

(** No [dart] executable on the search path. *)
Definition env_no_sdk : Env :=
  demo_env (Raise FileNotFoundError) (fun _ => Raise FileNotFoundError) (fun _ => true).

(** A [dart] file that may not be executed. *)
Definition env_not_executable : Env :=
  demo_env (Raise PermissionError) (fun _ => Raise PermissionError) (fun _ => true).

(** The SDK is fine but a package directory may not be entered. *)
Definition env_installer_denied : Env :=
  demo_env (banner (txt "3.10.5")) (fun _ => Raise PermissionError) (fun _ => true).

(** The installer fails without a diagnostic. *)
Definition env_pub_get_fails : Env :=
  demo_env (banner (txt "3.10.5")) (fun _ => Ret (69, txt "Resolving dependencies...", []))
    (fun _ => true).

(** A recent SDK, every directory present, every installation fine. *)
Definition env_ok : Env :=
  demo_env (banner (txt "3.10.5")) (fun _ => Ret (0, [], [])) (fun _ => true).

(** A development build of the SDK that prints its banner on standard
    error. *)
Definition env_dev_sdk : Env :=
  demo_env (Ret (0, [], txt "Dart SDK version: 3.10.4-dev.1"))
    (fun _ => Ret (0, [], [])) (fun _ => true).


(** A run of 4301 digits, one more than [int()] takes. *)
Definition overlong : text := repeat "1"%char 4301.

(** An SDK whose patch number has 4301 digits. *)
Definition env_long_sdk : Env :=
  demo_env (banner (txt "3.10." ++ overlong)) (fun _ => Ret (0, [], [])) (fun _ => true).

(** An SDK whose banner is not text in the expected encoding. *)
Definition env_undecodable : Env :=
  demo_env (Raise UnicodeDecodeError) (fun _ => Ret (0, [], [])) (fun _ => true).

(** The states in which some of these runs end. *)
Definition env_ok_loop_end : state unit :=
  Eval vm_compute in snd (install_loop env_ok packages true demo_start).

Definition env_ok_end : state unit :=
  Eval vm_compute in snd (main env_ok demo_start).

Definition env_missing_dir_end : state unit :=
  Eval vm_compute in snd (main env_missing_dir demo_start).


(** * Properties *)

(** ** Character classes *)

Ltac ascii_cases c :=
  destruct c as [[] [] [] [] [] [] [] []]; vm_compute; try reflexivity; try discriminate.

Lemma digit_not_int_space c : is_digit c = true -> is_int_space c = false.
Proof. ascii_cases c. Qed.

Lemma digit_not_space c : is_digit c = true -> is_space c = false.
Proof. ascii_cases c. Qed.

Lemma digit_not_dot c : is_digit c = true -> Ascii.eqb c dot = false.
Proof. ascii_cases c. Qed.

Lemma digit_not_underscore c : is_digit c = true -> Ascii.eqb c underscore = false.
Proof. ascii_cases c. Qed.

Lemma digit_not_plus c : is_digit c = true -> Ascii.eqb c plus_sign = false.
Proof. ascii_cases c. Qed.

Lemma digit_not_minus c : is_digit c = true -> Ascii.eqb c minus_sign = false.
Proof. ascii_cases c. Qed.

Lemma int_space_not_digit c : is_int_space c = true -> is_digit c = false.
Proof. ascii_cases c. Qed.

Lemma int_space_not_underscore c : is_int_space c = true -> Ascii.eqb c underscore = false.
Proof. ascii_cases c. Qed.

Lemma digit_value_range c : is_digit c = true -> 0 <= digit_value c <= 9.
Proof.
  destruct c as [[] [] [] [] [] [] [] []]; vm_compute; try discriminate;
    intros _; split; discriminate.
Qed.

Lemma int_space_not_minus c : is_int_space c = true -> Ascii.eqb minus_sign c = false.
Proof. ascii_cases c. Qed.

Lemma digit_not_minus' c : is_digit c = true -> Ascii.eqb minus_sign c = false.
Proof. ascii_cases c. Qed.

(** ** [int()] *)

Lemma drop_while_app p l s :
  Forall (fun x => p x = true) l -> drop_while p (l ++ s) = drop_while p s.
Proof.
  induction 1 as [|c l Hc _ IH]; simpl; [reflexivity|].
  now rewrite Hc.
Qed.

Lemma drop_while_all p l :
  Forall (fun x => p x = true) l -> drop_while p l = [].
Proof.
  intros H. rewrite <- (app_nil_r l). now rewrite drop_while_app.
Qed.

Lemma drop_while_split p s :
  exists l, s = l ++ drop_while p s /\ Forall (fun x => p x = true) l.
Proof.
  induction s as [|c s [l [E F]]]; simpl.
  - exists []. split; [reflexivity | constructor].
  - destruct (p c) eqn:Hc.
    + exists (c :: l). split; [simpl; congruence | now constructor].
    + exists []. split; [reflexivity | constructor].
Qed.

Lemma scan_sign_split s neg body :
  scan_sign s = (neg, body) ->
  exists sg, s = sg ++ body /\ sign_text sg /\
             neg = existsb (Ascii.eqb minus_sign) sg.
Proof.
  unfold scan_sign, sign_text. destruct s as [|c s].
  - intros [= <- <-]. exists []. auto.
  - destruct (Ascii.eqb c plus_sign) eqn:Hp.
    + apply Ascii.eqb_eq in Hp. subst c. intros [= <- <-].
      exists [plus_sign]. auto.
    + destruct (Ascii.eqb c minus_sign) eqn:Hm.
      * apply Ascii.eqb_eq in Hm. subst c. intros [= <- <-].
        exists [minus_sign]. auto.
      * intros [= <- <-]. exists []. auto.
Qed.

(** What the digit loop has consumed: after an underscore it is a
    sequence of digit groups, otherwise it extends any digit to one. *)
Lemma scan_digits_inv s :
  forall acc cnt pu n k rest,
    scan_digits acc cnt pu s = Some (n, k, rest) ->
    exists b, s = b ++ rest /\
      (if pu then digit_groups b
       else forall d, is_digit d = true -> digit_groups (d :: b)) /\
      n = decimal_from acc (filter is_digit b) /\
      k = cnt + Z.of_nat (length (filter is_digit b)).
Proof.
  induction s as [|c s IH]; intros acc cnt pu n k rest; cbn [scan_digits].
  - destruct pu; [discriminate|]. intros [= <- <- <-].
    exists []. simpl. repeat split; [|lia]. intros d Hd. now constructor.
  - destruct (is_digit c) eqn:Hc.
    + intros H. destruct (IH _ _ _ _ _ _ H) as [b [-> [Hb [-> ->]]]].
      exists (c :: b). cbn [filter app]. rewrite Hc. repeat split.
      * destruct pu.
        -- now apply Hb.
        -- intros d Hd. apply dg_digit; [assumption | now apply Hb].
      * cbn [length]. lia.
    + destruct (Ascii.eqb c underscore) eqn:Hu.
      * apply Ascii.eqb_eq in Hu. subst c.
        destruct pu; [discriminate|].
        intros H. destruct (IH _ _ _ _ _ _ H) as [b [-> [Hb [-> ->]]]].
        exists (underscore :: b). cbn [filter app]. rewrite Hc. repeat split.
        intros d Hd. now apply dg_under.
      * destruct pu; [discriminate|]. intros [= <- <- <-].
        exists []. simpl. repeat split; [|lia]. intros d Hd. now constructor.
Qed.

Lemma scan_literal_inv s n k rest :
  scan_literal s = Some (n, k, rest) ->
  exists b, s = b ++ rest /\ digit_groups b /\ n = decimal (filter is_digit b) /\
            k = Z.of_nat (length (filter is_digit b)).
Proof.
  destruct s as [|c s]; cbn [scan_literal]; [discriminate|].
  destruct (is_digit c) eqn:Hc; [|discriminate].
  intros H. destruct (scan_digits_inv _ _ _ _ _ _ _ H) as [b [-> [Hb [-> ->]]]].
  exists (c :: b). cbn [filter app]. rewrite Hc. repeat split.
  - now apply Hb.
  - cbn [length]. lia.
Qed.

Lemma scan_digits_groups b :
  digit_groups b ->
  forall acc cnt pu r, int_spaces r ->
    scan_digits acc cnt pu (b ++ r) =
    Some (decimal_from acc (filter is_digit b),
          cnt + Z.of_nat (length (filter is_digit b)), r).
Proof.
  induction 1 as [d Hd | d s Hd _ IH | d s Hd _ IH]; intros acc cnt pu r Hr;
    cbn [app scan_digits filter]; rewrite Hd.
  - cbn [length filter]. replace (cnt + Z.of_nat 1) with (cnt + 1) by lia.
    destruct Hr as [|c r Hc Hr]; cbn [scan_digits]; [reflexivity|].
    now rewrite (int_space_not_digit _ Hc), (int_space_not_underscore _ Hc).
  - rewrite IH by assumption. cbn [length].
    replace (cnt + 1 + Z.of_nat (length (filter is_digit s)))
      with (cnt + Z.of_nat (S (length (filter is_digit s)))) by lia.
    reflexivity.
  - cbn [scan_digits filter].
    replace (is_digit underscore) with false by reflexivity.
    replace (Ascii.eqb underscore underscore) with true by reflexivity.
    rewrite IH by assumption. cbn [length].
    replace (cnt + 1 + Z.of_nat (length (filter is_digit s)))
      with (cnt + Z.of_nat (S (length (filter is_digit s)))) by lia.
    reflexivity.
Qed.

Lemma digit_groups_head b :
  digit_groups b -> exists d b', b = d :: b' /\ is_digit d = true.
Proof. destruct 1; eauto. Qed.

Lemma scan_literal_groups b r :
  digit_groups b -> int_spaces r ->
  scan_literal (b ++ r) =
  Some (decimal (filter is_digit b), Z.of_nat (length (filter is_digit b)), r).
Proof.
  intros Hb Hr. pose proof (scan_digits_groups b Hb 0 0 true r Hr) as H.
  destruct (digit_groups_head b Hb) as [d [b' [-> Hd]]].
  cbn [app scan_literal scan_digits] in *. rewrite Hd in *.
  exact H.
Qed.

Lemma filter_digit_spaces l : int_spaces l -> filter is_digit l = [].
Proof.
  induction 1 as [|c l Hc _ IH]; simpl; [reflexivity|].
  now rewrite (int_space_not_digit _ Hc).
Qed.

Lemma filter_digit_sign sg : sign_text sg -> filter is_digit sg = [].
Proof. intros [-> | [-> | ->]]; reflexivity. Qed.

Lemma minus_in_spaces l : int_spaces l -> existsb (Ascii.eqb minus_sign) l = false.
Proof.
  induction 1 as [|c l Hc _ IH]; cbn [existsb]; [reflexivity|].
  now rewrite (int_space_not_minus _ Hc).
Qed.

Lemma minus_in_groups b : digit_groups b -> existsb (Ascii.eqb minus_sign) b = false.
Proof.
  induction 1 as [d Hd | d s Hd _ IH | d s Hd _ IH]; cbn [existsb];
    rewrite (digit_not_minus' _ Hd); auto.
Qed.

Lemma literal_value_parts l sg b r :
  int_spaces l -> sign_text sg -> digit_groups b -> int_spaces r ->
  literal_value (l ++ sg ++ b ++ r) =
  if existsb (Ascii.eqb minus_sign) sg
  then - decimal (filter is_digit b) else decimal (filter is_digit b).
Proof.
  intros Hl Hsg Hb Hr. unfold literal_value.
  rewrite !filter_app, !existsb_app.
  rewrite (filter_digit_spaces _ Hl), (filter_digit_spaces _ Hr), (filter_digit_sign _ Hsg).
  rewrite (minus_in_spaces _ Hl), (minus_in_spaces _ Hr), (minus_in_groups _ Hb).
  simpl. rewrite app_nil_r, !orb_false_r. reflexivity.
Qed.

Lemma scan_sign_parts sg b r :
  sign_text sg -> digit_groups b ->
  scan_sign (drop_while is_int_space (sg ++ b ++ r)) =
  (existsb (Ascii.eqb minus_sign) sg, b ++ r).
Proof.
  intros Hsg Hb. destruct (digit_groups_head b Hb) as [d [b' [Eb Hd]]].
  destruct Hsg as [-> | [-> | ->]]; subst b; simpl.
  - rewrite (digit_not_int_space _ Hd). simpl.
    now rewrite (digit_not_plus _ Hd), (digit_not_minus _ Hd).
  - reflexivity.
  - reflexivity.
Qed.

(** [int()] accepts exactly the literals, with their value. *)
Lemma py_int_literal s : int_literal s -> py_int s = Ret (literal_value s).
Proof.
  intros [l [sg [b [r [-> [Hl [Hsg [Hb [Hr Hk]]]]]]]]].
  rewrite (literal_value_parts _ _ _ _ Hl Hsg Hb Hr).
  unfold py_int. rewrite (drop_while_app _ _ _ Hl).
  rewrite (scan_sign_parts _ _ _ Hsg Hb), (scan_literal_groups _ _ Hb Hr).
  destruct (Z.gtb_spec (Z.of_nat (length (filter is_digit b))) int_max_str_digits);
    [lia|].
  now rewrite (drop_while_all _ _ Hr).
Qed.

(** Too many digits are refused, whatever else the text looks like. *)
Lemma py_int_too_long l sg b r :
  int_spaces l -> sign_text sg -> digit_groups b -> int_spaces r ->
  int_max_str_digits < Z.of_nat (length (filter is_digit b)) ->
  py_int (l ++ sg ++ b ++ r) = Raise ValueError.
Proof.
  intros Hl Hsg Hb Hr Hk.
  unfold py_int. rewrite (drop_while_app _ _ _ Hl).
  rewrite (scan_sign_parts _ _ _ Hsg Hb), (scan_literal_groups _ _ Hb Hr).
  destruct (Z.gtb_spec (Z.of_nat (length (filter is_digit b))) int_max_str_digits);
    [reflexivity | lia].
Qed.

Lemma py_int_ret_literal s z : py_int s = Ret z -> int_literal s.
Proof.
  unfold py_int.
  destruct (scan_sign (drop_while is_int_space s)) as [neg body] eqn:Hs.
  destruct (scan_literal body) as [[[n k] rest]|] eqn:Hb; [|discriminate].
  destruct (Z.gtb_spec k int_max_str_digits) as [Hk|Hk]; [discriminate|].
  destruct (drop_while is_int_space rest) eqn:Hr; [|discriminate].
  intros _.
  destruct (drop_while_split is_int_space s) as [l [El Fl]].
  destruct (scan_sign_split _ _ _ Hs) as [sg [Esg [Hsg _]]].
  destruct (scan_literal_inv _ _ _ _ Hb) as [b [Eb [Hdg [_ Ek]]]].
  destruct (drop_while_split is_int_space rest) as [r [Er Fr]].
  rewrite Hr, app_nil_r in Er. subst r.
  exists l, sg, b, rest. repeat split; try assumption.
  - rewrite El at 1. now rewrite Esg, Eb.
  - now rewrite <- Ek.
Qed.

Lemma py_int_raises s e : py_int s = Raise e -> e = ValueError.
Proof.
  unfold py_int.
  destruct (scan_sign _) as [neg body].
  destruct (scan_literal body) as [[[n k] rest]|].
  - destruct (k >? int_max_str_digits); [now intros [= <-]|].
    destruct (drop_while is_int_space rest); [discriminate | now intros [= <-]].
  - now intros [= <-].
Qed.

Lemma py_int_fails_iff s : py_int s = Raise ValueError <-> ~ int_literal s.
Proof.
  split.
  - intros H L. rewrite (py_int_literal _ L) in H. discriminate.
  - intros N. destruct (py_int s) as [z|e] eqn:H.
    + exfalso. apply N. eapply py_int_ret_literal; eauto.
    + now rewrite (py_int_raises _ _ H).
Qed.

(** ** [version_tuple] *)

Lemma tuple_of_ints_literals l :
  Forall int_literal l -> tuple_of_ints l = Ret (map literal_value l).
Proof.
  induction 1 as [|c l Hc _ IH]; simpl; [reflexivity|].
  now rewrite (py_int_literal _ Hc), IH.
Qed.

Lemma tuple_of_ints_raises l e :
  tuple_of_ints l = Raise e -> e = ValueError /\ Exists (fun c => ~ int_literal c) l.
Proof.
  induction l as [|c l IH]; simpl; [discriminate|].
  destruct (py_int c) as [n|e'] eqn:Hc.
  - destruct (tuple_of_ints l) as [t|e'']; [discriminate|].
    intros [= <-]. destruct (IH eq_refl) as [-> Hex]. split; [reflexivity|].
    now apply Exists_cons_tl.
  - intros [= <-]. pose proof (py_int_raises _ _ Hc) as ->. split; [reflexivity|].
    apply Exists_cons_hd. now apply py_int_fails_iff.
Qed.

Lemma tuple_of_ints_rejects l :
  Exists (fun c => ~ int_literal c) l -> tuple_of_ints l = Raise ValueError.
Proof.
  intros Hex. destruct (tuple_of_ints l) as [t|e] eqn:H.
  - exfalso. revert t H. induction Hex as [c l Hc | c l _ IH]; intros t; simpl.
    + apply py_int_fails_iff in Hc. rewrite Hc. discriminate.
    + destruct (py_int c); [|discriminate].
      destruct (tuple_of_ints l) as [t'|]; [|discriminate].
      intros _. now apply (IH t').
  - now destruct (tuple_of_ints_raises _ _ H) as [-> _].
Qed.

Lemma digit_run_groups c : digit_run c -> digit_groups c.
Proof.
  intros [Hne Hall]. induction Hall as [|d l Hd Hl IH]; [congruence|].
  destruct l as [|d' l'].
  - now constructor.
  - apply dg_digit; [assumption|]. apply IH. discriminate.
Qed.

Lemma filter_digit_run c :
  Forall (fun x => is_digit x = true) c -> filter is_digit c = c.
Proof.
  induction 1 as [|d l Hd _ IH]; simpl; [reflexivity|]. now rewrite Hd, IH.
Qed.

Lemma minus_in_digits c :
  Forall (fun x => is_digit x = true) c -> existsb (Ascii.eqb minus_sign) c = false.
Proof.
  induction 1 as [|d l Hd _ IH]; cbn [existsb]; [reflexivity|].
  now rewrite (digit_not_minus' _ Hd).
Qed.

Lemma digit_run_literal c :
  digit_run c -> within_limit c -> int_literal c /\ literal_value c = decimal c.
Proof.
  intros Hc Hk. split.
  - exists [], [], c, []. rewrite app_nil_r.
    split; [reflexivity|]. split; [constructor|]. split; [now left|].
    split; [now apply digit_run_groups|]. split; [constructor|].
    destruct Hc as [_ Hall]. now rewrite (filter_digit_run _ Hall).
  - destruct Hc as [_ Hall]. unfold literal_value.
    now rewrite (minus_in_digits _ Hall), (filter_digit_run _ Hall).
Qed.

Lemma minus_digit_run_literal c :
  digit_run c -> within_limit c ->
  int_literal (minus_sign :: c) /\ literal_value (minus_sign :: c) = - decimal c.
Proof.
  intros Hc Hk. split.
  - exists [], [minus_sign], c, []. rewrite app_nil_r.
    split; [reflexivity|]. split; [constructor|]. split; [right; now right|].
    split; [now apply digit_run_groups|]. split; [constructor|].
    destruct Hc as [_ Hall]. now rewrite (filter_digit_run _ Hall).
  - destruct Hc as [_ Hall]. unfold literal_value. cbn [existsb filter].
    replace (is_digit minus_sign) with false by reflexivity.
    replace (Ascii.eqb minus_sign minus_sign) with true by reflexivity.
    cbn [orb]. now rewrite (filter_digit_run _ Hall).
Qed.

(** A run of digits beyond the limit is refused. *)
Lemma digit_run_too_long c :
  digit_run c -> ~ within_limit c -> py_int c = Raise ValueError.
Proof.
  intros Hc Hk. pose proof (digit_run_groups _ Hc) as Hg.
  destruct Hc as [_ Hall].
  pose proof (py_int_too_long [] [] c [] (Forall_nil _) (or_introl eq_refl) Hg
                (Forall_nil _)) as H.
  rewrite (filter_digit_run _ Hall), app_nil_r in H. apply H.
  unfold within_limit in Hk. lia.
Qed.

Lemma decimal_from_nonneg ds :
  Forall (fun x => is_digit x = true) ds ->
  forall acc, 0 <= acc -> 0 <= decimal_from acc ds.
Proof.
  unfold decimal_from.
  induction 1 as [|d l Hd _ IH]; intros acc Hacc; cbn [fold_left]; [assumption|].
  apply IH. pose proof (digit_value_range _ Hd). lia.
Qed.

Lemma decimal_nonneg c : digit_run c -> 0 <= decimal c.
Proof. intros [_ H]. apply decimal_from_nonneg; [assumption | lia]. Qed.

Lemma version_tuple_valid v :
  valid_version v -> short_components v ->
  version_tuple v = Ret (map decimal (split_dot v)).
Proof.
  unfold valid_version, short_components, version_tuple. intros H Hs.
  rewrite Forall_forall in H, Hs.
  rewrite tuple_of_ints_literals.
  - f_equal. apply map_ext_in. intros c Hin.
    now apply digit_run_literal; [apply H | apply Hs].
  - apply Forall_forall. intros c Hin.
    now apply digit_run_literal; [apply H | apply Hs].
Qed.

Lemma version_tuple_too_long v :
  valid_version v -> ~ short_components v -> version_tuple v = Raise ValueError.
Proof.
  unfold valid_version, short_components, version_tuple. intros H Hs.
  apply tuple_of_ints_rejects. rewrite Forall_forall in H.
  apply Exists_exists.
  assert (Hex : Exists (fun c => ~ within_limit c) (split_dot v)).
  { apply neg_Forall_Exists_neg; [|exact Hs].
    intros c. unfold within_limit.
    destruct (Z_le_dec (Z.of_nat (length c)) int_max_str_digits); auto. }
  apply Exists_exists in Hex. destruct Hex as [c [Hin Hc]].
  exists c. split; [exact Hin|]. apply py_int_fails_iff.
  now apply digit_run_too_long; [apply H|].
Qed.

(** ** Tuple comparison *)

Lemma tuple_lt_irrefl a : tuple_lt a a = false.
Proof. induction a as [|x a IH]; simpl; [reflexivity|]. now rewrite Z.eqb_refl. Qed.

Lemma tuple_lt_numeric a :
  forall b, length a = length b -> (tuple_lt a b = true <-> numeric_lt a b).
Proof.
  induction a as [|x a IH]; intros [|y b] Hlen; simpl in *; try discriminate.
  - split; [discriminate | inversion 1].
  - injection Hlen as Hlen. destruct (Z.eqb_spec x y) as [->|Hne].
    + rewrite (IH b Hlen). split.
      * now constructor.
      * inversion 1; subst; [lia | assumption].
    + rewrite Z.ltb_lt. split.
      * now constructor.
      * inversion 1; subst; [assumption | congruence].
Qed.

Lemma tuple_ge_numeric a :
  forall b, length a = length b ->
            (tuple_lt a b = false <-> a = b \/ numeric_lt b a).
Proof.
  induction a as [|x a IH]; intros [|y b] Hlen; simpl in *; try discriminate.
  - split; auto.
  - injection Hlen as Hlen. destruct (Z.eqb_spec x y) as [->|Hne].
    + rewrite (IH b Hlen). split.
      * intros [-> | H]; [now left | right; now constructor].
      * intros [[= ->] | H]; [now left|].
        inversion H; subst; [lia | now right].
    + rewrite Z.ltb_ge. split.
      * intros Hle. right. constructor; [lia | congruence].
      * intros [[= -> _] | H]; [congruence|].
        inversion H; subst; [lia | congruence].
Qed.

Lemma tuple_lt_extension T e es :
  tuple_lt T (T ++ e :: es) = true /\ tuple_lt (T ++ e :: es) T = false.
Proof.
  induction T as [|x T [IH1 IH2]]; simpl; [split; reflexivity|].
  now rewrite Z.eqb_refl.
Qed.

(** ** The version pattern *)

Lemma span_spec p s a b :
  span p s = (a, b) ->
  s = a ++ b /\ Forall (fun x => p x = true) a /\
  match b with c :: _ => p c = false | [] => True end.
Proof.
  revert a b. induction s as [|c s IH]; intros a b; simpl.
  - intros [= <- <-]. repeat split. constructor.
  - destruct (p c) eqn:Hc.
    + destruct (span p s) as [a' b'] eqn:Hs. intros [= <- <-].
      destruct (IH _ _ eq_refl) as [-> [Ha Hb]].
      repeat split; [now constructor | assumption].
    + intros [= <- <-]. repeat split; [constructor | assumption].
Qed.

Lemma span_app p a s :
  Forall (fun x => p x = true) a ->
  span p (a ++ s) = (a ++ fst (span p s), snd (span p s)).
Proof.
  induction 1 as [|c a Hc _ IH]; simpl.
  - now destruct (span p s).
  - now rewrite Hc, IH.
Qed.

Lemma span_stop p c s : p c = false -> span p (c :: s) = ([], c :: s).
Proof. intros H. simpl. now rewrite H. Qed.

Lemma strip_prefix_app p s : strip_prefix p (p ++ s) = Some s.
Proof.
  induction p as [|a p IH]; simpl; [reflexivity|]. now rewrite Ascii.eqb_refl.
Qed.

Lemma strip_prefix_inv p :
  forall s r, strip_prefix p s = Some r -> s = p ++ r.
Proof.
  induction p as [|a p IH]; intros s r; simpl.
  - now intros [= ->].
  - destruct s as [|b s]; [discriminate|].
    destruct (Ascii.eqb a b) eqn:E; [|discriminate].
    apply Ascii.eqb_eq in E. subst b. intros H. now rewrite (IH _ _ H).
Qed.

Lemma digits1_spec s d r :
  digits1 s = Some (d, r) ->
  s = d ++ r /\ digit_run d /\ not_digit_first r.
Proof.
  unfold digits1. destruct (span is_digit s) as [a b] eqn:Hs.
  destruct (span_spec _ _ _ _ Hs) as [-> [Ha Hb]].
  destruct a as [|c a]; [discriminate|]. intros [= <- <-].
  repeat split; [discriminate | assumption | assumption].
Qed.

Lemma digits1_run d s :
  digit_run d ->
  digits1 (d ++ s) = Some (d ++ fst (span is_digit s), snd (span is_digit s)).
Proof.
  intros [Hne Hall]. unfold digits1. rewrite (span_app _ _ _ Hall).
  destruct d; [congruence | reflexivity].
Qed.

Lemma digits1_run_dot d s :
  digit_run d -> digits1 (d ++ dot :: s) = Some (d, dot :: s).
Proof.
  intros H. rewrite (digits1_run _ _ H). rewrite span_stop by reflexivity.
  simpl. now rewrite app_nil_r.
Qed.

Lemma expect_dot_inv s r : expect_dot s = Some r -> s = dot :: r.
Proof.
  destruct s as [|c s]; simpl; [discriminate|].
  destruct (Ascii.eqb c dot) eqn:E; [|discriminate].
  apply Ascii.eqb_eq in E. now intros [= ->]; subst.
Qed.

Lemma match_version_sound s v :
  match_version s = Some v ->
  exists post, s = v ++ post /\ version_string v /\ not_digit_first post.
Proof.
  unfold match_version.
  destruct (digits1 s) as [[d1 r1]|] eqn:H1; [|discriminate].
  destruct (expect_dot r1) as [r1'|] eqn:E1; [|discriminate].
  destruct (digits1 r1') as [[d2 r2]|] eqn:H2; [|discriminate].
  destruct (expect_dot r2) as [r2'|] eqn:E2; [|discriminate].
  destruct (digits1 r2') as [[d3 r3]|] eqn:H3; [|discriminate].
  intros [= <-].
  destruct (digits1_spec _ _ _ H1) as [-> [R1 _]].
  destruct (digits1_spec _ _ _ H2) as [-> [R2 _]].
  destruct (digits1_spec _ _ _ H3) as [-> [R3 N3]].
  apply expect_dot_inv in E1, E2. subst.
  exists r3. split; [|split; [now exists d1, d2, d3 | assumption]].
  rewrite <- !app_assoc. simpl. rewrite <- !app_assoc. reflexivity.
Qed.

(** Wherever the pattern can match, the greedy matcher succeeds. *)
Lemma match_version_complete v post :
  version_string v -> exists v', match_version (v ++ post) = Some v'.
Proof.
  intros [d1 [d2 [d3 [-> [R1 [R2 R3]]]]]].
  unfold match_version.
  rewrite <- !app_assoc. simpl. rewrite (digits1_run_dot _ _ R1). simpl.
  rewrite <- !app_assoc. simpl. rewrite (digits1_run_dot _ _ R2). simpl.
  rewrite (digits1_run _ _ R3). eauto.
Qed.

Lemma version_string_head v :
  version_string v -> exists c r, v = c :: r /\ is_digit c = true.
Proof.
  intros [d1 [d2 [d3 [-> [[Hne Hall] _]]]]].
  destruct Hall as [|c d Hc _]; [congruence|]. simpl. eauto.
Qed.

Lemma span_spaces_version ws v post :
  spaces ws -> version_string v ->
  snd (span is_space (ws ++ v ++ post)) = v ++ post.
Proof.
  intros Hws Hv. rewrite (span_app _ _ _ Hws).
  destruct (version_string_head _ Hv) as [c [r [-> Hc]]].
  simpl. now rewrite (digit_not_space _ Hc).
Qed.

Lemma match_here_complete s v :
  matches_at s v -> exists v', match_here s = Some v'.
Proof.
  intros [ws [post [-> [Hws Hv]]]]. unfold match_here.
  rewrite strip_prefix_app, (span_spaces_version _ _ _ Hws Hv).
  now apply match_version_complete.
Qed.

Lemma match_here_sound s v :
  match_here s = Some v -> greedy_match_at s v.
Proof.
  unfold match_here.
  destruct (strip_prefix version_label s) as [r|] eqn:Hp; [|discriminate].
  apply strip_prefix_inv in Hp. subst s.
  destruct (span is_space r) as [ws r'] eqn:Hs.
  destruct (span_spec _ _ _ _ Hs) as [-> [Hws _]]. simpl.
  intros H. destruct (match_version_sound _ _ H) as [post [-> [Hv Hn]]].
  now exists ws, post.
Qed.

Lemma greedy_matches s v : greedy_match_at s v -> matches_at s v.
Proof. intros [ws [post [E [Hws [Hv _]]]]]. now exists ws, post. Qed.

Lemma re_search_none s : re_search s = None -> ~ has_match s.
Proof.
  induction s as [|c s IH]; simpl.
  - destruct (match_here []) eqn:Hm; [discriminate|]. intros _ [pre [suf [v [E Hv]]]].
    symmetry in E. apply app_eq_nil in E. destruct E as [-> ->].
    destruct (match_here_complete _ _ Hv) as [v' Hv']. congruence.
  - destruct (match_here (c :: s)) eqn:Hm; [discriminate|].
    intros H [pre [suf [v [E Hv]]]]. destruct pre as [|c' pre]; simpl in E.
    + subst suf. destruct (match_here_complete _ _ Hv) as [v' Hv']. congruence.
    + injection E as -> ->. apply (IH H). now exists pre, suf, v.
Qed.

Lemma re_search_some s v : re_search s = Some v -> first_match s v.
Proof.
  induction s as [|c s IH]; simpl.
  - discriminate.
  - destruct (match_here (c :: s)) as [v0|] eqn:Hm.
    + intros [= ->]. exists [], (c :: s). split; [reflexivity|].
      split; [now apply match_here_sound|]. simpl. intros. lia.
    + intros H. destruct (IH H) as [pre [suf [-> [Hg Hfirst]]]].
      exists (c :: pre), suf. split; [reflexivity|]. split; [assumption|].
      intros pre' suf' v' E Hlen Hv'. destruct pre' as [|c' pre']; simpl in E.
      * subst suf'. destruct (match_here_complete _ _ Hv') as [v'' Hv'']. congruence.
      * injection E as -> E. simpl in Hlen.
        apply (Hfirst pre' suf' v' E); [lia | assumption].
Qed.

Lemma split_dot_digits d :
  Forall (fun x => is_digit x = true) d -> split_dot d = [d].
Proof.
  induction 1 as [|c d Hc _ IH]; simpl; [reflexivity|].
  now rewrite (digit_not_dot _ Hc), IH.
Qed.

Lemma split_dot_run d s :
  Forall (fun x => is_digit x = true) d -> split_dot (d ++ dot :: s) = d :: split_dot s.
Proof.
  induction 1 as [|c d Hc _ IH]; simpl.
  - reflexivity.
  - now rewrite (digit_not_dot _ Hc), IH.
Qed.

Lemma version_string_split v :
  version_string v ->
  exists d1 d2 d3,
    v = d1 ++ dot :: d2 ++ dot :: d3 /\
    digit_run d1 /\ digit_run d2 /\ digit_run d3 /\
    split_dot v = [d1; d2; d3].
Proof.
  intros [d1 [d2 [d3 [-> [R1 [R2 R3]]]]]].
  exists d1, d2, d3. do 4 (split; [assumption || reflexivity|]).
  destruct R1 as [_ A1], R2 as [_ A2], R3 as [_ A3].
  now rewrite (split_dot_run _ _ A1), (split_dot_run _ _ A2), (split_dot_digits _ A3).
Qed.

Lemma within_limit_dec c : {within_limit c} + {~ within_limit c}.
Proof. unfold within_limit. apply Z_le_dec. Qed.

(** A version made of three digit runs is converted to their three
    values unless one of them is too long for [int()]. *)
Lemma version_string_tuple v :
  version_string v ->
  exists d1 d2 d3,
    v = d1 ++ dot :: d2 ++ dot :: d3 /\
    digit_run d1 /\ digit_run d2 /\ digit_run d3 /\
    ((within_limit d1 /\ within_limit d2 /\ within_limit d3 /\
      version_tuple v = Ret [decimal d1; decimal d2; decimal d3]) \/
     (~ (within_limit d1 /\ within_limit d2 /\ within_limit d3) /\
      version_tuple v = Raise ValueError)).
Proof.
  intros Hv.
  destruct (version_string_split _ Hv) as [d1 [d2 [d3 [E [R1 [R2 [R3 Hsplit]]]]]]].
  exists d1, d2, d3. do 4 (split; [assumption|]).
  assert (Hval : valid_version v).
  { unfold valid_version. rewrite Hsplit.
    repeat (apply Forall_cons; [assumption|]). apply Forall_nil. }
  destruct (within_limit_dec d1) as [L1|L1];
    [destruct (within_limit_dec d2) as [L2|L2];
     [destruct (within_limit_dec d3) as [L3|L3]|]|].
  - left. do 3 (split; [assumption|]).
    rewrite version_tuple_valid; [now rewrite Hsplit | assumption |].
    unfold short_components. rewrite Hsplit.
    repeat (apply Forall_cons; [assumption|]). apply Forall_nil.
  - right. split; [tauto|]. apply version_tuple_too_long; [assumption|].
    unfold short_components. rewrite Hsplit. intros F.
    inversion F as [|? ? _ F1]; inversion F1 as [|? ? _ F2]; inversion F2; subst; auto.
  - right. split; [tauto|]. apply version_tuple_too_long; [assumption|].
    unfold short_components. rewrite Hsplit. intros F.
    inversion F as [|? ? _ F1]; inversion F1; subst; auto.
  - right. split; [tauto|]. apply version_tuple_too_long; [assumption|].
    unfold short_components. rewrite Hsplit. intros F. inversion F; subst; auto.
Qed.

(** ** The script *)

Section SetupProperties.

Variable E : Env.

Lemma run_command_eq cmd cwd st :
  run_command E cmd cwd st =
  let st' := mkState (snd (subprocess_run E cmd cwd (world st))) (console st)
                     (spawned st ++ [(cmd, cwd)]) in
  match fst (subprocess_run E cmd cwd (world st)) with
  | Ret r => (Ret r, st')
  | Raise FileNotFoundError =>
      match cmd with
      | c :: _ => (Ret (1, [], txt "Command not found: " ++ c), st')
      | [] => (Raise IndexError, st')
      end
  | Raise e => (Raise e, st')
  end.
Proof.
  unfold run_command, try_except, spawn.
  destruct (subprocess_run E cmd cwd (world st)) as [[r|e] w]; simpl.
  - reflexivity.
  - destruct e; simpl; try reflexivity. destruct cmd; reflexivity.
Qed.

Lemma run_command_state cmd cwd st r st' :
  run_command E cmd cwd st = (r, st') ->
  console st' = console st /\ spawned st' = spawned st ++ [(cmd, cwd)].
Proof.
  rewrite run_command_eq. cbv zeta.
  destruct (fst (subprocess_run E cmd cwd (world st))) as [res|e].
  - intros [= <- <-]. auto.
  - destruct e; try (intros [= <- <-]; auto).
    destruct cmd; intros [= <- <-]; auto.
Qed.

Lemma check_dart_version_state st r st' :
  check_dart_version E st = (r, st') ->
  console st' = console st /\ spawned st' = spawned st ++ [(dart_version_cmd, None)].
Proof.
  unfold check_dart_version, bind.
  destruct (run_command E dart_version_cmd None st) as [[[[c o] e]|x] st1] eqn:Hr;
    apply run_command_state in Hr.
  - destruct (negb (c =? 0)); [intros [= <- <-]; exact Hr|].
    destruct (re_search (o ++ e)); intros [= <- <-]; exact Hr.
  - intros [= <- <-]. exact Hr.
Qed.

Lemma prelude_eq st :
  prelude E st =
  (Ret tt, mkState (os_chdir E (repo_root E) (world st))
                   (console st ++ [L_title; L_rule; L_platform; L_blank; L_checking])
                   (spawned st)).
Proof.
  unfold prelude, bind, print, chdir. simpl. rewrite <- !app_assoc. reflexivity.
Qed.

(** C5 (amended).  [run_command] returns a result exactly when
    [subprocess.run] returns or raises [FileNotFoundError].  In the
    first case the result is the exit code and the captured output
    that [subprocess.run] returned; in the second it is exit code 1, an
    empty standard output and the message "Command not found: "
    followed by the first argument.  Every other exception that
    [subprocess.run] raises reaches the caller, be it raised when the
    process is started or after the process has ended, as when its
    output cannot be decoded. *)
Theorem run_command_result (c0 : text) (args : list text) (cwd : option Path)
  (st : state (World E)) :
  (forall r, fst (spawn E (c0 :: args) cwd st) = Ret r ->
     run_command E (c0 :: args) cwd st = (Ret r, snd (spawn E (c0 :: args) cwd st))) /\
  (fst (spawn E (c0 :: args) cwd st) = Raise FileNotFoundError ->
     run_command E (c0 :: args) cwd st =
       (Ret (1, [], txt "Command not found: " ++ c0), snd (spawn E (c0 :: args) cwd st))
     /\ 1 <> 0) /\
  (forall e, fst (spawn E (c0 :: args) cwd st) = Raise e -> e <> FileNotFoundError ->
     run_command E (c0 :: args) cwd st = (Raise e, snd (spawn E (c0 :: args) cwd st))) /\
  ((exists r st', run_command E (c0 :: args) cwd st = (Ret r, st')) <->
   (forall e, fst (spawn E (c0 :: args) cwd st) = Raise e -> e = FileNotFoundError)).
Proof.
  unfold run_command, try_except.
  destruct (spawn E (c0 :: args) cwd st) as [[r|e] st1] eqn:Hs; simpl.
  - split; [now intros r' [= ->]|]. split; [discriminate|].
    split; [discriminate|]. split; [intros _ e; discriminate | eauto].
  - split; [discriminate|]. split; [intros [= ->]; split; [reflexivity | discriminate]|].
    split.
    + intros e' [= ->] Hne. destruct e'; try reflexivity. congruence.
    + split.
      * intros [r [st' H]] e' [= <-]. destruct e; try reflexivity; discriminate.
      * intros H. rewrite (H e eq_refl). simpl. unfold bind, first_arg, ret. eauto.
Qed.


(** C4.  When the version query ends with a non-zero exit code the
    probe returns nothing.  When it ends with exit code zero the probe
    looks at standard output followed by standard error: without a
    match of the pattern it returns nothing, otherwise it returns the
    version of the first match. *)
Theorem check_dart_version_result (st st1 : state (World E)) (code : Z) (out err : text) :
  run_command E dart_version_cmd None st = (Ret (code, out, err), st1) ->
  (code <> 0 -> check_dart_version E st = (Ret None, st1)) /\
  (code = 0 -> ~ has_match (out ++ err) -> check_dart_version E st = (Ret None, st1)) /\
  (code = 0 -> has_match (out ++ err) ->
     exists v, check_dart_version E st = (Ret (Some v), st1) /\
               first_match (out ++ err) v).
Proof.
  intros Hr. unfold check_dart_version, bind. rewrite Hr.
  destruct (Z.eqb_spec code 0) as [->|Hne]; simpl.
  - split; [congruence|].
    destruct (re_search (out ++ err)) as [v|] eqn:Hs.
    + split.
      * intros _ Hno. exfalso. apply Hno.
        destruct (re_search_some _ _ Hs) as [pre [suf [E1 [Hg _]]]].
        exists pre, suf, v. split; [assumption | now apply greedy_matches].
      * intros _ _. exists v. split; [reflexivity | now apply re_search_some].
    + split; [reflexivity|].
      intros _ Hm. exfalso. exact (re_search_none _ Hs Hm).
  - repeat split; congruence.
Qed.

Lemma check_dart_version_some st v st1 :
  check_dart_version E st = (Ret (Some v), st1) ->
  exists out err,
    run_command E dart_version_cmd None st = (Ret (0, out, err), st1) /\
    re_search (out ++ err) = Some v.
Proof.
  unfold check_dart_version, bind.
  destruct (run_command E dart_version_cmd None st) as [[[[c o] e]|x] st'] eqn:Hr;
    [|discriminate].
  destruct (Z.eqb_spec c 0) as [->|Hne]; simpl; [|discriminate].
  destruct (re_search (o ++ e)) as [v'|] eqn:Hs; [|discriminate].
  intros [= -> ->]. eauto.
Qed.

(** C10 (amended).  A version returned by the probe is made of three
    runs of decimal digits separated by dots.  When none of the runs
    has more than 4300 digits, [version_tuple] turns it into the three
    numbers they denote, none of them negative; when one of them has,
    [int()] refuses it and [version_tuple] raises [ValueError].  A
    tuple that is returned has the length of the minimum version, so
    tuples of unequal length are never compared. *)
Theorem probed_version_parses (st st1 : state (World E)) (v : text) :
  check_dart_version E st = (Ret (Some v), st1) ->
  exists d1 d2 d3,
    v = d1 ++ dot :: d2 ++ dot :: d3 /\
    digit_run d1 /\ digit_run d2 /\ digit_run d3 /\
    (within_limit d1 /\ within_limit d2 /\ within_limit d3 ->
       version_tuple v = Ret [decimal d1; decimal d2; decimal d3] /\
       0 <= decimal d1 /\ 0 <= decimal d2 /\ 0 <= decimal d3) /\
    (~ (within_limit d1 /\ within_limit d2 /\ within_limit d3) ->
       version_tuple v = Raise ValueError) /\
    (forall t, version_tuple v = Ret t -> length t = length min_version).
Proof.
  intros H. destruct (check_dart_version_some _ _ _ H) as [out [err [_ Hs]]].
  destruct (re_search_some _ _ Hs) as [pre [suf [_ [[ws [post [_ [_ [Hv _]]]]] _]]]].
  destruct (version_string_tuple _ Hv)
    as [d1 [d2 [d3 [E1 [R1 [R2 [R3 [[L1 [L2 [L3 Ht]]] | [Hl Ht]]]]]]]]].
  - exists d1, d2, d3. do 4 (split; [assumption|]).
    split; [|split].
    + intros _. split; [exact Ht|]. repeat split; now apply decimal_nonneg.
    + intros N. exfalso. apply N. auto.
    + intros t Ht'. rewrite Ht in Ht'. injection Ht' as <-. reflexivity.
  - exists d1, d2, d3. do 4 (split; [assumption|]).
    split; [|split].
    + intros L. contradiction.
    + intros _. exact Ht.
    + intros t Ht'. rewrite Ht in Ht'. discriminate Ht'.
Qed.

(** What [main] does once the prelude has run. *)
Lemma main_after_prelude st :
  main E st =
  bind (check_dart_version E)
    (fun dart_version =>
       match dart_version with
       | None => bind (print L_sdk_not_found) (fun _ => ret 1)
       | Some v =>
           bind (print (L_found v)) (fun _ =>
           bind (lift (version_tuple v)) (fun t =>
           if tuple_lt t min_version then
             bind (print (L_warn_version v)) (fun _ =>
             bind (print L_upgrade_hint) (fun _ => ret 1))
           else
             bind (print L_blank) (fun _ =>
             bind (print L_installing) (fun _ =>
             bind (print L_blank) (fun _ =>
             bind (install_loop E packages true) (fun success =>
             bind (print L_blank) (fun _ =>
             if success then
               bind (print L_complete) (fun _ =>
               bind (print L_blank) (fun _ =>
               bind (print L_next_steps) (fun _ =>
               bind (print L_next_doc) (fun _ =>
               bind (print L_next_tests) (fun _ =>
               bind (print L_next_dev) (fun _ => ret 0))))))
             else
               bind (print L_errors) (fun _ => ret 1))))))))
       end)
    (snd (prelude E st)).
Proof.
  unfold main. unfold bind at 1. rewrite prelude_eq. reflexivity.
Qed.




End SetupProperties.

(** ** Versions *)

(** C6 (amended).  For valid version strings with the same number of
    components and no component of more than 4300 digits,
    [version_tuple] yields the numbers the components denote and the
    comparison [main] makes follows the numeric order of the first
    differing component; a version is at least itself.  A valid
    version string with a longer component is not converted:
    [version_tuple] raises [ValueError]. *)
Theorem is_at_least_numeric_order (v1 v2 : text) :
  valid_version v1 -> valid_version v2 ->
  length (split_dot v1) = length (split_dot v2) ->
  (short_components v1 -> short_components v2 ->
   exists t1 t2,
     version_tuple v1 = Ret t1 /\ version_tuple v2 = Ret t2 /\
     t1 = map decimal (split_dot v1) /\ t2 = map decimal (split_dot v2) /\
     (is_at_least t1 t2 = true <-> t1 = t2 \/ numeric_lt t2 t1) /\
     (is_at_least t1 t2 = false <-> numeric_lt t1 t2) /\
     is_at_least t1 t1 = true) /\
  (~ short_components v1 -> version_tuple v1 = Raise ValueError) /\
  (~ short_components v2 -> version_tuple v2 = Raise ValueError).
Proof.
  intros H1 H2 Hlen.
  split; [|split; intros Hs; now apply version_tuple_too_long].
  intros S1 S2.
  exists (map decimal (split_dot v1)), (map decimal (split_dot v2)).
  assert (Hl : length (map decimal (split_dot v1)) = length (map decimal (split_dot v2)))
    by now rewrite !length_map.
  split; [now apply version_tuple_valid|].
  split; [now apply version_tuple_valid|].
  split; [reflexivity|]. split; [reflexivity|].
  unfold is_at_least. rewrite negb_true_iff, negb_false_iff.
  split; [now apply tuple_ge_numeric|].
  split; [now apply tuple_lt_numeric|].
  now rewrite tuple_lt_irrefl.
Qed.

(** C7 (amended).  [version_tuple] raises [ValueError] exactly when
    some dot-separated component is not a literal accepted by [int()]:
    optional white space, an optional sign, decimal digits that may be
    separated by single underscores and are at most 4300 in number,
    optional white space.  Otherwise it returns the values of the
    components.  A run of at most 4300 digits is such a literal and so
    is such a run after a minus sign, whose value is negative or zero:
    a negative component does not make the conversion fail.  A run of
    more than 4300 digits is not. *)
Theorem version_tuple_int_literals (v : text) :
  (version_tuple v = Raise ValueError <->
   Exists (fun c => ~ int_literal c) (split_dot v)) /\
  (Forall int_literal (split_dot v) ->
   version_tuple v = Ret (map literal_value (split_dot v))) /\
  (forall e, version_tuple v = Raise e -> e = ValueError) /\
  (forall c, digit_run c -> within_limit c ->
     int_literal c /\ literal_value c = decimal c /\
     int_literal (minus_sign :: c) /\ literal_value (minus_sign :: c) = - decimal c) /\
  (forall c, digit_run c -> ~ within_limit c -> ~ int_literal c).
Proof.
  unfold version_tuple. split; [split|split; [|split; [|split]]].
  - intros H. now destruct (tuple_of_ints_raises _ _ H).
  - apply tuple_of_ints_rejects.
  - apply tuple_of_ints_literals.
  - intros e H. now destruct (tuple_of_ints_raises _ _ H).
  - intros c Hc Hk.
    destruct (digit_run_literal c Hc Hk) as [A B].
    destruct (minus_digit_run_literal c Hc Hk) as [C D]. auto.
  - intros c Hc Hk. apply py_int_fails_iff. now apply digit_run_too_long.
Qed.

(** The order of tuples itself does not pad: a tuple is strictly below
    each of its proper extensions. *)
Lemma is_at_least_extension (T : list Z) (e : Z) (es : list Z) :
  is_at_least (T ++ e :: es) T = true /\ is_at_least T (T ++ e :: es) = false.
Proof.
  unfold is_at_least. destruct (tuple_lt_extension T e es) as [-> ->]. auto.
Qed.

(** * Instances *)

Ltac digit_runs :=
  repeat match goal with
    | |- valid_version _ => unfold valid_version; simpl
    | |- Forall _ (_ :: _) => apply Forall_cons
    | |- Forall _ [] => apply Forall_nil
    | |- digit_run _ => split
    | |- _ <> _ => discriminate
    | |- _ = _ => reflexivity
    end.

Lemma is_at_least_numeric_order_witness :
  valid_version (txt "3.9.0") /\ valid_version (txt "3.10.1") /\
  length (split_dot (txt "3.9.0")) = length (split_dot (txt "3.10.1")) /\
  (short_components (txt "3.9.0") -> short_components (txt "3.10.1") ->
   exists t1 t2,
     version_tuple (txt "3.9.0") = Ret t1 /\ version_tuple (txt "3.10.1") = Ret t2 /\
     t1 = map decimal (split_dot (txt "3.9.0")) /\
     t2 = map decimal (split_dot (txt "3.10.1")) /\
     (is_at_least t1 t2 = true <-> t1 = t2 \/ numeric_lt t2 t1) /\
     (is_at_least t1 t2 = false <-> numeric_lt t1 t2) /\
     is_at_least t1 t1 = true) /\
  (~ short_components (txt "3.9.0") -> version_tuple (txt "3.9.0") = Raise ValueError) /\
  (~ short_components (txt "3.10.1") -> version_tuple (txt "3.10.1") = Raise ValueError).
Proof.
  assert (H1 : valid_version (txt "3.9.0")) by digit_runs.
  assert (H2 : valid_version (txt "3.10.1")) by digit_runs.
  split; [exact H1|]. split; [exact H2|]. split; [reflexivity|].
  exact (is_at_least_numeric_order (txt "3.9.0") (txt "3.10.1") H1 H2 eq_refl).
Defined.

Lemma overlong_digit_run : digit_run overlong.
Proof.
  split.
  - intros E. apply (f_equal (@length ascii)) in E. unfold overlong in E.
    rewrite repeat_length in E. discriminate E.
  - apply Forall_forall. intros x Hx. apply repeat_spec in Hx. now subst x.
Qed.

(** A valid version string with a component of 4301 digits is not
    converted, so there is no tuple to compare. *)
Lemma is_at_least_overlong_component :
  valid_version (txt "3.10." ++ overlong) /\ valid_version (txt "3.10.1") /\
  length (split_dot (txt "3.10." ++ overlong)) = length (split_dot (txt "3.10.1")) /\
  version_tuple (txt "3.10." ++ overlong) = Raise ValueError /\
  ~ (exists t, version_tuple (txt "3.10." ++ overlong) = Ret t).
Proof.
  assert (Hs : split_dot (txt "3.10." ++ overlong) = [txt "3"; txt "10"; overlong])
    by (vm_compute; reflexivity).
  assert (Hr : version_tuple (txt "3.10." ++ overlong) = Raise ValueError)
    by (vm_compute; reflexivity).
  split.
  - unfold valid_version. rewrite Hs.
    apply Forall_cons; [unfold txt; simpl; repeat split; digit_runs|].
    apply Forall_cons; [unfold txt; simpl; repeat split; digit_runs|].
    apply Forall_cons; [exact overlong_digit_run | apply Forall_nil].
  - split; [digit_runs|]. split; [now rewrite Hs|]. split; [exact Hr|].
    intros [t Ht]. rewrite Hr in Ht. discriminate Ht.
Qed.

(** "3.9.0" is not at least "3.10.1", although it comes later in the
    order of strings. *)
Example is_at_least_3_9_0 :
  version_tuple (txt "3.9.0") = Ret [3; 9; 0] /\
  version_tuple (txt "3.10.1") = Ret [3; 10; 1] /\
  is_at_least [3; 9; 0] [3; 10; 1] = false /\
  is_at_least [3; 10; 1] [3; 9; 0] = true /\
  String.ltb "3.10.1" "3.9.0" = true.
Proof. repeat split. Qed.

(** The component "-1" is not a run of digits, yet the conversion
    succeeds. *)
Lemma version_tuple_negative_component :
  ~ (version_tuple (txt "3.-1.2") = Raise ValueError <->
     Exists (fun c => ~ digit_run c) (split_dot (txt "3.-1.2"))) /\
  version_tuple (txt "3.-1.2") = Ret [3; -1; 2].
Proof.
  split; [|reflexivity].
  intros [_ H]. assert (E : version_tuple (txt "3.-1.2") = Raise ValueError).
  { apply H. simpl. apply Exists_cons_tl, Exists_cons_hd.
    intros [_ D]. inversion D as [|c l Hc _]. discriminate Hc. }
  discriminate E.
Qed.

(** (3, 10) is below (3, 10, 0) in the order of tuples. *)
Lemma is_at_least_no_padding :
  ~ (is_at_least [3; 10] [3; 10; 0] = true /\ is_at_least [3; 10; 0] [3; 10] = true) /\
  is_at_least [3; 10] [3; 10; 0] = false.
Proof. split; [intros [H _]; discriminate H | reflexivity]. Qed.

(** A [dart] file that may not be executed: the exception is not
    [FileNotFoundError] and reaches the caller. *)
Lemma run_command_permission_error :
  fst (run_command env_not_executable dart_version_cmd None demo_start)
    = Raise PermissionError /\
  ~ (exists r st', run_command env_not_executable dart_version_cmd None demo_start
                   = (Ret r, st')).
Proof.
  split; [reflexivity|]. intros [r [st' H]]. discriminate H.
Qed.

(** Output that cannot be decoded: the process has run, yet the
    exception of [subprocess.run] reaches the caller. *)
Example run_command_undecodable :
  fst (run_command env_undecodable dart_version_cmd None demo_start)
    = Raise UnicodeDecodeError.
Proof. reflexivity. Qed.

(** Without a [dart] executable the result is made up by [run_command]. *)
Example run_command_not_found :
  fst (run_command env_no_sdk dart_version_cmd None demo_start)
    = Ret (1, [], txt "Command not found: dart").
Proof. reflexivity. Qed.


Lemma check_dart_version_result_witness :
  run_command env_old_sdk dart_version_cmd None demo_start
  = (Ret (0, txt "Dart SDK version: 3.9.9 (stable) on linux_x64", []),
     mkState tt [] [(dart_version_cmd, None)]) /\
  (has_match (txt "Dart SDK version: 3.9.9 (stable) on linux_x64" ++ []) ->
   exists v,
     check_dart_version env_old_sdk demo_start
     = (Ret (Some v), mkState tt [] [(dart_version_cmd, None)]) /\
     first_match (txt "Dart SDK version: 3.9.9 (stable) on linux_x64" ++ []) v).
Proof.
  split; [reflexivity|].
  refine (proj2 (proj2 (check_dart_version_result env_old_sdk demo_start _ 0
                          (txt "Dart SDK version: 3.9.9 (stable) on linux_x64") []
                          eq_refl)) eq_refl).
Defined.

Example check_dart_version_3_9_9 :
  fst (check_dart_version env_old_sdk demo_start) = Ret (Some (txt "3.9.9")).
Proof. reflexivity. Qed.

(** The first match wins and the exit code is looked at first. *)
Example re_search_first :
  re_search (txt "x Dart SDK version: 1.2.3 Dart SDK version:  4.5.67 (dev)")
    = Some (txt "1.2.3") /\
  re_search (txt "Dart SDK version: 1.2 Dart SDK version:" ++ [ascii_of_nat 160]
             ++ txt "4.5.67abc") = Some (txt "4.5.67") /\
  re_search (txt "Dart SDK 3.10.4") = None /\
  fst (check_dart_version
         (demo_env (Ret (1, txt "Dart SDK version: 3.10.4", [])) (fun _ => Ret (0, [], []))
            (fun _ => true)) demo_start) = Ret None /\
  fst (check_dart_version
         (demo_env (Ret (0, txt "Dart SDK ver", txt "sion: 3.10.4")) (fun _ => Ret (0, [], []))
            (fun _ => true)) demo_start) = Ret (Some (txt "3.10.4")).
Proof. repeat split. Qed.

Lemma probed_version_parses_witness :
  check_dart_version env_old_sdk demo_start
  = (Ret (Some (txt "3.9.9")), mkState tt [] [(dart_version_cmd, None)]) /\
  exists d1 d2 d3,
    txt "3.9.9" = d1 ++ dot :: d2 ++ dot :: d3 /\
    digit_run d1 /\ digit_run d2 /\ digit_run d3 /\
    (within_limit d1 /\ within_limit d2 /\ within_limit d3 ->
       version_tuple (txt "3.9.9") = Ret [decimal d1; decimal d2; decimal d3] /\
       0 <= decimal d1 /\ 0 <= decimal d2 /\ 0 <= decimal d3) /\
    (~ (within_limit d1 /\ within_limit d2 /\ within_limit d3) ->
       version_tuple (txt "3.9.9") = Raise ValueError) /\
    (forall t, version_tuple (txt "3.9.9") = Ret t -> length t = length min_version).
Proof.
  split; [reflexivity|].
  exact (probed_version_parses env_old_sdk demo_start _ (txt "3.9.9") eq_refl).
Defined.

(** The probe returns a version with a patch number of 4301 digits;
    its conversion raises and so does [main]. *)
Lemma probed_version_overlong :
  fst (check_dart_version env_long_sdk (snd (prelude env_long_sdk demo_start)))
    = Ret (Some (txt "3.10." ++ overlong)) /\
  version_tuple (txt "3.10." ++ overlong) = Raise ValueError /\
  fst (main env_long_sdk demo_start) = Raise ValueError.
Proof. repeat split; vm_compute; reflexivity. Qed.



(** The second package directory is missing: the third package is
    installed all the same and the exit status is 1. *)
Example main_missing_second_directory :
  main env_missing_dir demo_start =
  (Ret 1,
   mkState tt
     [L_title; L_rule; L_platform; L_blank; L_checking; L_found (txt "3.10.5");
      L_blank; L_installing; L_blank;
      L_package (txt "entidb_sync_protocol"); L_installed;
      L_package (txt "entidb_sync_client");
      L_dir_not_found [txt "repo"; txt "packages"; txt "entidb_sync_client"];
      L_package (txt "entidb_sync_server"); L_installed;
      L_blank; L_errors]
     [(dart_version_cmd, None);
      (pub_get_cmd, Some [txt "repo"; txt "packages"; txt "entidb_sync_protocol"]);
      (pub_get_cmd, Some [txt "repo"; txt "packages"; txt "entidb_sync_server"])]).
Proof. reflexivity. Qed.

(** Every installer run fails: all three are made. *)
Example main_all_installers_fail :
  fst (main env_pub_get_fails demo_start) = Ret 1 /\
  spawned (snd (main env_pub_get_fails demo_start)) =
    [(dart_version_cmd, None);
     (pub_get_cmd, Some [txt "repo"; txt "packages"; txt "entidb_sync_protocol"]);
     (pub_get_cmd, Some [txt "repo"; txt "packages"; txt "entidb_sync_client"]);
     (pub_get_cmd, Some [txt "repo"; txt "packages"; txt "entidb_sync_server"])].
Proof. split; reflexivity. Qed.

(** All installers succeed. *)
Example main_success :
  fst (main (demo_env (banner (txt "3.10.5")) (fun _ => Ret (0, [], [])) (fun _ => true))
         demo_start) = Ret 0.
Proof. reflexivity. Qed.

(** An exception that [run_command] does not catch ends the run at the
    package where it is raised. *)
Example main_installer_denied :
  fst (main env_installer_denied demo_start) = Raise PermissionError /\
  spawned (snd (main env_installer_denied demo_start)) =
    [(dart_version_cmd, None);
     (pub_get_cmd, Some [txt "repo"; txt "packages"; txt "entidb_sync_protocol"])].
Proof. split; reflexivity. Qed.

(** * Further properties *)

(** ** The order on tuples *)

Lemma tuple_lt_trans a :
  forall b c, tuple_lt a b = true -> tuple_lt b c = true -> tuple_lt a c = true.
Proof.
  induction a as [|x a IH]; intros [|y b] [|z c]; simpl; try discriminate; auto.
  destruct (Z.eqb_spec x y) as [->|Hxy].
  - destruct (Z.eqb_spec y z) as [->|Hyz]; [apply IH | auto].
  - intros Hlt. apply Z.ltb_lt in Hlt.
    destruct (Z.eqb_spec y z) as [->|Hyz].
    + intros _. destruct (Z.eqb_spec x z); [lia | now apply Z.ltb_lt].
    + intros Hlt'. apply Z.ltb_lt in Hlt'.
      destruct (Z.eqb_spec x z); [lia | apply Z.ltb_lt; lia].
Qed.

Lemma tuple_lt_trichotomy a :
  forall b, tuple_lt a b = true \/ a = b \/ tuple_lt b a = true.
Proof.
  induction a as [|x a IH]; intros [|y b]; simpl; auto.
  destruct (Z.eqb_spec x y) as [->|Hxy].
  - rewrite Z.eqb_refl. destruct (IH b) as [H | [-> | H]]; auto.
  - destruct (Z.eqb_spec y x); [congruence|].
    destruct (Z.ltb_spec x y); [auto|]. right. right. apply Z.ltb_lt. lia.
Qed.

Lemma tuple_lt_asym a b : tuple_lt a b = true -> tuple_lt b a = false.
Proof.
  intros H. destruct (tuple_lt b a) eqn:H'; [|reflexivity].
  pose proof (tuple_lt_trans _ _ _ H H') as C. now rewrite tuple_lt_irrefl in C.
Qed.

(** X1.  [<] on tuples of any lengths is a strict total order: no
    tuple is below itself, the relation is transitive, and of two
    different tuples exactly one is below the other. *)
Theorem tuple_lt_strict_total_order :
  (forall a, tuple_lt a a = false) /\
  (forall a b c, tuple_lt a b = true -> tuple_lt b c = true -> tuple_lt a c = true) /\
  (forall a b, tuple_lt a b = true -> tuple_lt b a = false) /\
  (forall a b, a <> b -> tuple_lt a b = true \/ tuple_lt b a = true).
Proof.
  split; [exact tuple_lt_irrefl|]. split; [exact tuple_lt_trans|].
  split; [exact tuple_lt_asym|].
  intros a b Hne. destruct (tuple_lt_trichotomy a b) as [H | [H | H]]; auto.
Qed.

(** X2.  Acceptance is monotone: a version that is at least an
    accepted version is accepted, whatever the lengths of the tuples. *)
Theorem is_at_least_trans (a b c : list Z) :
  is_at_least a b = true -> is_at_least b c = true -> is_at_least a c = true.
Proof.
  unfold is_at_least. rewrite !negb_true_iff. intros Hab Hbc.
  destruct (tuple_lt a c) eqn:Hac; [|reflexivity].
  destruct (tuple_lt_trichotomy a b) as [H | [-> | H]]; [congruence | congruence |].
  pose proof (tuple_lt_trans _ _ _ H Hac). congruence.
Qed.

(** X3.  A three-component version passes the check of [main] exactly
    when it is 3.10.1 or later: a larger major number, or major 3 with
    a minor number above 10, or 3.10 with a patch number of at least 1. *)
Theorem is_at_least_min_version (a b c : Z) :
  is_at_least [a; b; c] min_version = true <->
  3 < a \/ (a = 3 /\ (10 < b \/ (b = 10 /\ 1 <= c))).
Proof.
  unfold is_at_least, min_version. simpl.
  destruct (Z.eqb_spec a 3); destruct (Z.eqb_spec b 10); destruct (Z.eqb_spec c 1);
    destruct (Z.ltb_spec a 3); destruct (Z.ltb_spec b 10); destruct (Z.ltb_spec c 1);
    simpl; split; intros; try discriminate; try reflexivity; lia.
Qed.

(** ** Splitting and converting *)

Lemma split_dot_nonempty s : split_dot s <> [].
Proof.
  destruct s as [|c s]; simpl; [discriminate|].
  destruct (Ascii.eqb c dot); [discriminate|].
  destruct (split_dot s); discriminate.
Qed.

Lemma split_dot_app a b : split_dot (a ++ dot :: b) = split_dot a ++ split_dot b.
Proof.
  induction a as [|c a IH]; simpl; [reflexivity|].
  rewrite IH. destruct (Ascii.eqb c dot); [reflexivity|].
  pose proof (split_dot_nonempty a). destruct (split_dot a); [congruence | reflexivity].
Qed.

Lemma length_split_dot s :
  length (split_dot s) = S (count_occ ascii_dec s dot).
Proof.
  induction s as [|c s IH]; simpl; [reflexivity|].
  destruct (Ascii.eqb_spec c dot) as [->|Hne].
  - simpl. rewrite IH. now destruct (ascii_dec dot dot).
  - destruct (ascii_dec c dot); [congruence|].
    pose proof (split_dot_nonempty s). destruct (split_dot s); [congruence | exact IH].
Qed.

Lemma tuple_of_ints_length l t : tuple_of_ints l = Ret t -> length t = length l.
Proof.
  revert t. induction l as [|c l IH]; intros t; simpl.
  - now intros [= <-].
  - destruct (py_int c); [|discriminate].
    destruct (tuple_of_ints l) as [t'|]; [|discriminate].
    intros [= <-]. simpl. now rewrite (IH t').
Qed.

Lemma tuple_of_ints_app l1 l2 :
  tuple_of_ints (l1 ++ l2) =
  match tuple_of_ints l1, tuple_of_ints l2 with
  | Ret t1, Ret t2 => Ret (t1 ++ t2)
  | _, _ => Raise ValueError
  end.
Proof.
  induction l1 as [|c l1 IH]; simpl.
  - destruct (tuple_of_ints l2) as [t|e] eqn:H; [reflexivity|].
    now destruct (tuple_of_ints_raises _ _ H) as [-> _].
  - destruct (py_int c) as [n|e] eqn:Hc.
    + rewrite IH. destruct (tuple_of_ints l1) as [t1|e1] eqn:H1.
      * destruct (tuple_of_ints l2); reflexivity.
      * reflexivity.
    + now rewrite (py_int_raises _ _ Hc).
Qed.

(** X4.  A version string with [k] dots is converted to a tuple of
    [k + 1] numbers, if it is converted at all. *)
Theorem version_tuple_length (v : text) (t : list Z) :
  version_tuple v = Ret t -> length t = S (count_occ ascii_dec v dot).
Proof.
  unfold version_tuple. intros H.
  now rewrite (tuple_of_ints_length _ _ H), length_split_dot.
Qed.

(** X5.  Conversion goes component by component: the tuple of two
    version strings joined by a dot is the tuple of the first followed
    by the tuple of the second, and the joined string is rejected as
    soon as one of the two is. *)
Theorem version_tuple_app (a b : text) :
  version_tuple (a ++ dot :: b) =
  match version_tuple a, version_tuple b with
  | Ret ta, Ret tb => Ret (ta ++ tb)
  | _, _ => Raise ValueError
  end.
Proof.
  unfold version_tuple. rewrite split_dot_app. apply tuple_of_ints_app.
Qed.

Lemma tuple_of_ints_empty_component l :
  In [] l -> tuple_of_ints l = Raise ValueError.
Proof.
  intros Hin. apply tuple_of_ints_rejects. apply Exists_exists.
  exists []. split; [assumption|]. now apply py_int_fails_iff.
Qed.

(** X6.  A version string with an empty component is rejected: the
    empty string, a string that starts or ends with a dot, and a string
    with two dots in a row all raise [ValueError]. *)
Theorem version_tuple_empty_component (a b : text) :
  version_tuple [] = Raise ValueError /\
  version_tuple (dot :: a) = Raise ValueError /\
  version_tuple (a ++ [dot]) = Raise ValueError /\
  version_tuple (a ++ dot :: dot :: b) = Raise ValueError.
Proof.
  unfold version_tuple.
  split; [reflexivity|]. split; [|split].
  - apply tuple_of_ints_empty_component. change (dot :: a) with ([] ++ dot :: a).
    rewrite split_dot_app. now left.
  - rewrite split_dot_app. apply tuple_of_ints_empty_component.
    apply in_or_app. right. now left.
  - rewrite split_dot_app. apply tuple_of_ints_empty_component.
    apply in_or_app. right. change (dot :: b) with ([] ++ dot :: b).
    rewrite split_dot_app. now left.
Qed.

Lemma digit_run_no_dot c : digit_run c -> no_dot c.
Proof.
  intros [_ H] Hin. rewrite Forall_forall in H.
  pose proof (digit_not_dot _ (H _ Hin)) as E. discriminate E.
Qed.

Lemma split_dot_no_dot c : no_dot c -> split_dot c = [c].
Proof.
  unfold no_dot. induction c as [|x c IH]; simpl; intros H; [reflexivity|].
  destruct (Ascii.eqb_spec x dot) as [->|Hne]; [exfalso; auto|].
  rewrite IH; [reflexivity | intros Hin; auto].
Qed.

Lemma split_dot_join cs :
  cs <> [] -> Forall no_dot cs -> split_dot (join_dot cs) = cs.
Proof.
  intros Hne Hall. induction Hall as [|c cs Hc Hcs IH]; [congruence|].
  destruct cs as [|c' cs'].
  - simpl. now apply split_dot_no_dot.
  - change (join_dot (c :: c' :: cs')) with (c ++ dot :: join_dot (c' :: cs')).
    rewrite split_dot_app, (split_dot_no_dot _ Hc), IH by discriminate. reflexivity.
Qed.

Lemma zero_digit_run c : digit_run c -> digit_run (zero :: c) /\ decimal (zero :: c) = decimal c.
Proof.
  intros [Hne Hall]. split; [|reflexivity].
  split; [discriminate | now constructor].
Qed.

(** X7.  Digit runs of at most 4300 digits joined by dots are
    converted to the numbers they denote, and a leading zero changes
    nothing as long as the run with its zero has at most 4300 digits:
    "03.010.1" gives the tuple of "3.10.1".  With a run of more than
    4300 digits the conversion raises [ValueError]. *)
Theorem version_tuple_join (cs : list text) :
  cs <> [] -> Forall digit_run cs ->
  (Forall within_limit cs -> version_tuple (join_dot cs) = Ret (map decimal cs)) /\
  (Forall within_limit (map (cons zero) cs) ->
   version_tuple (join_dot (map (cons zero) cs)) = Ret (map decimal cs)) /\
  (~ Forall within_limit cs -> version_tuple (join_dot cs) = Raise ValueError).
Proof.
  intros Hne Hall.
  assert (Hz : Forall digit_run (map (cons zero) cs)).
  { apply Forall_map. eapply Forall_impl; [|exact Hall].
    intros c Hc. now apply zero_digit_run. }
  assert (Hnd : Forall no_dot cs)
    by (eapply Forall_impl; [|exact Hall]; exact digit_run_no_dot).
  split; [|split].
  - intros Hk. rewrite version_tuple_valid.
    + now rewrite split_dot_join.
    + unfold valid_version. now rewrite split_dot_join.
    + unfold short_components. now rewrite split_dot_join.
  - intros Hk.
    assert (Hne' : map (cons zero) cs <> []) by (destruct cs; [congruence | discriminate]).
    assert (Hnd' : Forall no_dot (map (cons zero) cs))
      by (eapply Forall_impl; [|exact Hz]; exact digit_run_no_dot).
    rewrite version_tuple_valid.
    + rewrite split_dot_join by assumption. rewrite map_map.
      apply f_equal. apply map_ext_in. intros c Hin.
      rewrite Forall_forall in Hall. now apply zero_digit_run, Hall.
    + unfold valid_version. now rewrite split_dot_join.
    + unfold short_components. now rewrite split_dot_join.
  - intros Hk. apply version_tuple_too_long.
    + unfold valid_version. now rewrite split_dot_join.
    + unfold short_components. now rewrite split_dot_join.
Qed.

(** ** The probe *)

Lemma span_not_digit_first post :
  not_digit_first post -> span is_digit post = ([], post).
Proof.
  destruct post as [|c post]; simpl; [reflexivity|]. now intros ->.
Qed.

Lemma match_version_greedy v post :
  version_string v -> not_digit_first post -> match_version (v ++ post) = Some v.
Proof.
  intros [d1 [d2 [d3 [-> [R1 [R2 R3]]]]]] Hpost.
  unfold match_version.
  rewrite <- !app_assoc. simpl. rewrite (digits1_run_dot _ _ R1). simpl.
  rewrite <- !app_assoc. simpl. rewrite (digits1_run_dot _ _ R2). simpl.
  rewrite (digits1_run _ _ R3), (span_not_digit_first _ Hpost). simpl.
  now rewrite app_nil_r.
Qed.

Lemma match_here_greedy s v : greedy_match_at s v -> match_here s = Some v.
Proof.
  intros [ws [post [-> [Hws [Hv Hpost]]]]]. unfold match_here.
  rewrite strip_prefix_app, (span_spaces_version _ _ _ Hws Hv).
  now apply match_version_greedy.
Qed.

Lemma match_here_none s : (forall v, ~ matches_at s v) -> match_here s = None.
Proof.
  intros H. destruct (match_here s) as [v|] eqn:Hm; [|reflexivity].
  exfalso. apply (H v). now apply greedy_matches, match_here_sound.
Qed.

Lemma re_search_first_match s v : first_match s v -> re_search s = Some v.
Proof.
  intros [pre [suf [-> [Hg Hfirst]]]].
  induction pre as [|c pre IH]; simpl app.
  - pose proof (match_here_greedy _ _ Hg) as Hm.
    destruct suf as [|c suf]; cbn [re_search]; now rewrite Hm.
  - cbn [re_search]. rewrite match_here_none.
    + apply IH. intros pre' suf' v' E Hlen.
      apply (Hfirst (c :: pre') suf' v'); [simpl; now rewrite E | simpl; lia].
    + intros v'. apply (Hfirst [] (c :: pre ++ suf) v'); [reflexivity | simpl; lia].
Qed.

(** X8.  The search returns a version exactly when that version is
    the group of the first match, so the result is determined by the
    text alone; it returns nothing exactly when the pattern matches
    nowhere. *)
Theorem re_search_characterised (s : text) :
  (forall v, re_search s = Some v <-> first_match s v) /\
  (re_search s = None <-> ~ has_match s).
Proof.
  split.
  - intros v. split; [apply re_search_some | apply re_search_first_match].
  - split; [apply re_search_none|].
    intros Hno. destruct (re_search s) as [v|] eqn:Hs; [|reflexivity].
    exfalso. apply Hno. destruct (re_search_some _ _ Hs) as [pre [suf [E [Hg _]]]].
    exists pre, suf, v. split; [assumption | now apply greedy_matches].
Qed.

Section ProbeProperties.

Variable E : Env.

(** X9.  A version query that ends with exit code 0 and whose output,
    standard output followed by standard error, is the label, white
    space, a version and a rest that does not start with a digit, makes
    the probe return that version: a suffix such as "-dev" or
    " (stable)" is left out. *)
Theorem check_dart_version_banner (st st1 : state (World E))
  (out err ws v post : text) :
  run_command E dart_version_cmd None st = (Ret (0, out, err), st1) ->
  out ++ err = version_label ++ ws ++ v ++ post ->
  spaces ws -> version_string v -> not_digit_first post ->
  check_dart_version E st = (Ret (Some v), st1).
Proof.
  intros Hr Hout Hws Hv Hpost. unfold check_dart_version, bind. rewrite Hr. simpl.
  rewrite Hout. pose proof (match_here_greedy (version_label ++ ws ++ v ++ post) v) as Hm.
  assert (Hs : re_search (version_label ++ ws ++ v ++ post) = Some v).
  { apply re_search_first_match. exists [], (version_label ++ ws ++ v ++ post).
    split; [reflexivity|]. split; [now exists ws, post|]. simpl. intros. lia. }
  now rewrite Hs.
Qed.


End ProbeProperties.

(** ** The loop and [main], whatever the environment does *)

Section TraceProperties.

Variable E : Env.

Lemma run_command_cases c0 args cwd st :
  let r := run_command E (c0 :: args) cwd st in
  let sr := subprocess_run E (c0 :: args) cwd (world st) in
  console (snd r) = console st /\
  spawned (snd r) = spawned st ++ [(c0 :: args, cwd)] /\
  world (snd r) = snd sr /\
  ((exists res, fst sr = Ret res /\ fst r = Ret res) \/
   (fst sr = Raise FileNotFoundError /\
    fst r = Ret (1, [], txt "Command not found: " ++ c0)) \/
   (exists e, fst sr = Raise e /\ e <> FileNotFoundError /\ fst r = Raise e)).
Proof.
  cbv zeta. rewrite run_command_eq. cbv zeta.
  destruct (fst (subprocess_run E (c0 :: args) cwd (world st))) as [res|e] eqn:H.
  - simpl. repeat split. left. eauto.
  - destruct e; simpl; repeat split;
      try (right; right; eexists; split; [reflexivity|]; split; [discriminate | reflexivity]).
    right. left. auto.
Qed.

Lemma install_package_deps_cases package_path st :
  let r := install_package_deps E package_path st in
  let sr := subprocess_run E pub_get_cmd (Some package_path) (world st) in
  spawned (snd r) = spawned st ++ [(pub_get_cmd, Some package_path)] /\
  world (snd r) = snd sr /\
  ((exists code out err,
      fst sr = Ret (code, out, err) /\ fst r = Ret (code =? 0) /\
      console (snd r) = console st ++ (if code =? 0 then [] else [L_failed err])) \/
   (fst sr = Raise FileNotFoundError /\ fst r = Ret false /\
    console (snd r) = console st ++ [L_failed (txt "Command not found: dart")]) \/
   (exists e, fst sr = Raise e /\ e <> FileNotFoundError /\ fst r = Raise e /\
              console (snd r) = console st)).
Proof.
  cbv zeta. unfold install_package_deps, bind, print, ret, pub_get_cmd.
  destruct (run_command_cases (txt "dart") [txt "pub"; txt "get"]
              (Some package_path) st) as [Hc [Hs [Hw Hr]]].
  destruct (run_command E [txt "dart"; txt "pub"; txt "get"]
              (Some package_path) st) as [[[[c o] e]|x] st1].
  - cbn [fst snd] in *. split; [|split].
    + destruct (c =? 0); exact Hs.
    + destruct (c =? 0); exact Hw.
    + destruct Hr as [[res [Hres [= <-]]] | [[Hres [= -> -> ->]] | [x [_ [_ Habs]]]]];
        [| |discriminate].
      * left. exists c, o, e. split; [exact Hres|].
        destruct (c =? 0); cbn [negb fst snd console]; rewrite ?app_nil_r, Hc;
          split; reflexivity.
      * right. left. split; [exact Hres|]. cbn [negb fst snd console Z.eqb].
        rewrite Hc. split; reflexivity.
  - cbn [fst snd] in *. split; [exact Hs|]. split; [exact Hw|]. right. right.
    destruct Hr as [[res [_ Habs]] | [[_ Habs] | [x' [Hres [Hne [= <-]]]]]];
      try discriminate.
    exists x. auto.
Qed.

Lemma subsequence_refl {A} (l : list A) : subsequence l l.
Proof. induction l; constructor; assumption. Qed.

Lemma subsequence_nil {A} (l : list A) : subsequence [] l.
Proof. induction l; constructor; assumption. Qed.

Lemma subsequence_app {A} (a b c d : list A) :
  subsequence a b -> subsequence c d -> subsequence (a ++ c) (b ++ d).
Proof.
  induction 1; intros Hcd; simpl;
    [assumption | apply subseq_skip; auto | apply subseq_keep; auto].
Qed.

Lemma install_loop_cons package rest success st :
  install_loop E (package :: rest) success st =
  match path_exists E (package_path_of E package) (world st) with
  | Ret true =>
      match install_package_deps E (package_path_of E package)
              (mkState (world st) (console st ++ [L_package package]) (spawned st)) with
      | (Ret true, st1) =>
          install_loop E rest success
            (mkState (world st1) (console st1 ++ [L_installed]) (spawned st1))
      | (Ret false, st1) => install_loop E rest false st1
      | (Raise e, st1) => (Raise e, st1)
      end
  | Ret false =>
      install_loop E rest false
        (mkState (world st)
           ((console st ++ [L_package package]) ++
            [L_dir_not_found (package_path_of E package)])
           (spawned st))
  | Raise e => (Raise e, st)
  end.
Proof.
  cbn [install_loop]. unfold bind at 1. unfold exists_.
  destruct (path_exists E (package_path_of E package) (world st)) as [[|]|e]; cbn [negb].
  - unfold bind at 1. unfold print at 1. unfold bind at 1.
    destruct (install_package_deps E (package_path_of E package) _) as [[[|]|e] st1];
      reflexivity.
  - reflexivity.
  - reflexivity.
Qed.

(** One run of the loop, told in terms of what the operating system
    answered: either every package was attempted and the result is the
    flag with the failed attempts taken off, or the directory test or
    the start of the installer raised for some package, after the
    packages before it had been attempted. *)
Lemma install_loop_run pkgs :
  forall success st,
  (exists atts st',
     install_loop E pkgs success st
       = (Ret (success && negb (existsb attempt_failed atts)), st') /\
     loop_run E pkgs (world st) atts (world st') /\
     console st' = console st ++ flat_map (attempt_lines E) atts /\
     spawned st' = spawned st ++ flat_map (attempt_calls E) atts) \/
  (exists e st' done p rest atts w hdr last,
     install_loop E pkgs success st = (Raise e, st') /\
     pkgs = done ++ p :: rest /\
     loop_run E done (world st) atts w /\
     raises_at E p w e /\
     console st' = console st ++ flat_map (attempt_lines E) atts ++ hdr /\
     (hdr = [] \/ hdr = [L_package p]) /\
     spawned st' = spawned st ++ flat_map (attempt_calls E) atts ++ last /\
     (last = [] \/ last = [installer_call E p])).
Proof.
  induction pkgs as [|p rest IH]; intros success st.
  - left. exists [], st. simpl. rewrite !app_nil_r, andb_true_r.
    repeat split. constructor.
  - rewrite install_loop_cons.
    destruct (path_exists E (package_path_of E p) (world st)) as [[|]|e] eqn:Hex.
    + (* the directory is there *)
      destruct (install_package_deps_cases (package_path_of E p)
                  (mkState (world st) (console st ++ [L_package p]) (spawned st)))
        as [Hs1 [Hw1 Hcase]].
      destruct (install_package_deps E (package_path_of E p)
                  (mkState (world st) (console st ++ [L_package p]) (spawned st)))
        as [r1 st1].
      cbn [fst snd world console spawned] in Hs1, Hw1, Hcase.
      destruct (subprocess_run E pub_get_cmd (Some (package_path_of E p)) (world st))
        as [sr w1] eqn:Hsr.
      cbn [fst snd] in Hw1, Hcase.
      destruct Hcase as [[code [out [err [-> [-> Hc1]]]]] |
                         [[-> [-> Hc1]] | [e [-> [Hne [-> Hc1]]]]]].
      * (* the installer ran *)
        destruct (Z.eqb_spec code 0) as [->|Hcode].
        -- rewrite app_nil_r in Hc1.
           destruct (IH success
                       (mkState (world st1) (console st1 ++ [L_installed]) (spawned st1)))
             as [[atts [st' [Hl [Hrun [Hc Hs]]]]] |
                 [e [st' [done [q [rest' [atts [w [hdr [last
                    [Hl [-> [Hrun [Hraise [Hc [Hh [Hs Hla]]]]]]]]]]]]]]]]];
             cbn [world console spawned] in Hrun, Hc, Hs; rewrite Hw1 in Hrun.
           ++ left. exists (Ran p 0 err :: atts), st'.
              split; [exact Hl|]. split; [eapply loop_run_ran; eauto|].
              split; [rewrite Hc, Hc1; cbn [flat_map attempt_lines installed_lines Z.eqb];
                      rewrite <- !app_assoc; reflexivity|].
              rewrite Hs, Hs1. cbn [flat_map attempt_calls installer_call].
              rewrite <- !app_assoc. reflexivity.
           ++ right. exists e, st', (p :: done), q, rest', (Ran p 0 err :: atts), w, hdr, last.
              split; [exact Hl|]. split; [reflexivity|].
              split; [eapply loop_run_ran; eauto|]. split; [exact Hraise|].
              split; [rewrite Hc, Hc1; cbn [flat_map attempt_lines installed_lines Z.eqb];
                      rewrite <- !app_assoc; reflexivity|].
              split; [exact Hh|].
              split; [|exact Hla].
              rewrite Hs, Hs1. cbn [flat_map attempt_calls installer_call].
              rewrite <- !app_assoc. reflexivity.
        -- assert (Hz : (code =? 0) = false) by now apply Z.eqb_neq.
           destruct (IH false st1)
             as [[atts [st' [Hl [Hrun [Hc Hs]]]]] |
                 [e [st' [done [q [rest' [atts [w [hdr [last
                    [Hl [-> [Hrun [Hraise [Hc [Hh [Hs Hla]]]]]]]]]]]]]]]]];
             rewrite Hw1 in Hrun.
           ++ left. exists (Ran p code err :: atts), st'.
              split; [rewrite Hl; cbn [existsb attempt_failed]; rewrite Hz;
                      cbn [negb orb andb]; now rewrite andb_false_r|].
              split; [eapply loop_run_ran; eauto|].
              split; [rewrite Hc, Hc1; cbn [flat_map attempt_lines]; rewrite Hz;
                      rewrite <- !app_assoc; reflexivity|].
              rewrite Hs, Hs1. cbn [flat_map attempt_calls installer_call].
              rewrite <- !app_assoc. reflexivity.
           ++ right.
              exists e, st', (p :: done), q, rest', (Ran p code err :: atts), w, hdr, last.
              split; [exact Hl|]. split; [reflexivity|].
              split; [eapply loop_run_ran; eauto|]. split; [exact Hraise|].
              split; [rewrite Hc, Hc1; cbn [flat_map attempt_lines]; rewrite Hz;
                      rewrite <- !app_assoc; reflexivity|].
              split; [exact Hh|].
              split; [|exact Hla].
              rewrite Hs, Hs1. cbn [flat_map attempt_calls installer_call].
              rewrite <- !app_assoc. reflexivity.
      * (* the installer was not found *)
        destruct (IH false st1)
          as [[atts [st' [Hl [Hrun [Hc Hs]]]]] |
              [e [st' [done [q [rest' [atts [w [hdr [last
                 [Hl [-> [Hrun [Hraise [Hc [Hh [Hs Hla]]]]]]]]]]]]]]]]];
          rewrite Hw1 in Hrun.
        -- left. exists (Ran p 1 (txt "Command not found: dart") :: atts), st'.
           split; [rewrite Hl; cbn [existsb attempt_failed Z.eqb negb orb andb];
                   now rewrite andb_false_r|].
           split; [eapply loop_run_not_found; eauto|].
           split; [rewrite Hc, Hc1; cbn [flat_map attempt_lines Z.eqb];
                   rewrite <- !app_assoc; reflexivity|].
           rewrite Hs, Hs1. cbn [flat_map attempt_calls installer_call].
           rewrite <- !app_assoc. reflexivity.
        -- right.
           exists e, st', (p :: done), q, rest',
             (Ran p 1 (txt "Command not found: dart") :: atts), w, hdr, last.
           split; [exact Hl|]. split; [reflexivity|].
           split; [eapply loop_run_not_found; eauto|]. split; [exact Hraise|].
           split; [rewrite Hc, Hc1; cbn [flat_map attempt_lines Z.eqb];
                   rewrite <- !app_assoc; reflexivity|].
           split; [exact Hh|].
           split; [|exact Hla].
           rewrite Hs, Hs1. cbn [flat_map attempt_calls installer_call].
           rewrite <- !app_assoc. reflexivity.
      * (* the installer could not be started *)
        right. exists e, st1, [], p, rest, [], (world st), [L_package p],
                 [installer_call E p].
        split; [reflexivity|]. split; [reflexivity|]. split; [constructor|].
        split; [right; rewrite Hsr; auto|].
        split; [exact Hc1|]. split; [now right|].
        split; [exact Hs1 | now right].
    + (* the directory is missing *)
      destruct (IH false
                  (mkState (world st)
                     ((console st ++ [L_package p]) ++
                      [L_dir_not_found (package_path_of E p)])
                     (spawned st)))
        as [[atts [st' [Hl [Hrun [Hc Hs]]]]] |
            [e [st' [done [q [rest' [atts [w [hdr [last
               [Hl [-> [Hrun [Hraise [Hc [Hh [Hs Hla]]]]]]]]]]]]]]]]];
        cbn [world console spawned] in Hrun, Hc, Hs.
      * left. exists (Missing p :: atts), st'.
        split; [rewrite Hl; cbn [existsb attempt_failed negb orb andb];
                now rewrite andb_false_r|].
        split; [now apply loop_run_missing|].
        split; [rewrite Hc; cbn [flat_map attempt_lines missing_lines];
                rewrite <- !app_assoc; reflexivity|].
        exact Hs.
      * right. exists e, st', (p :: done), q, rest', (Missing p :: atts), w, hdr, last.
        split; [exact Hl|]. split; [reflexivity|].
        split; [now apply loop_run_missing|]. split; [exact Hraise|].
        split; [rewrite Hc; cbn [flat_map attempt_lines missing_lines];
                rewrite <- !app_assoc; reflexivity|].
        split; [exact Hh|]. split; [exact Hs | exact Hla].
    + (* the directory test raises *)
      right. exists e, st, [], p, rest, [], (world st), [], [].
      split; [reflexivity|]. split; [reflexivity|]. split; [constructor|].
      split; [now left|].
      simpl. rewrite !app_nil_r. auto.
Qed.

Lemma loop_run_packages pkgs w atts w' :
  loop_run E pkgs w atts w' -> map attempt_package atts = pkgs.
Proof. induction 1; simpl; congruence. Qed.

Lemma attempt_calls_subsequence atts :
  exists done,
    flat_map (attempt_calls E) atts = map (installer_call E) done /\
    subsequence done (map attempt_package atts).
Proof.
  induction atts as [|a atts [done [Hd Hsub]]].
  - exists []. split; [reflexivity | constructor].
  - destruct a as [p|p code err]; simpl.
    + exists done. split; [exact Hd | now constructor].
    + exists (p :: done). split; [simpl; now rewrite Hd | now constructor].
Qed.

Lemma attempt_lines_loop atts :
  forallb is_loop_line (flat_map (attempt_lines E) atts) = true.
Proof.
  induction atts as [|a atts IH]; [reflexivity|].
  cbn [flat_map]. rewrite forallb_app, IH, andb_true_r.
  destruct a as [p|p code err]; [reflexivity|].
  cbn [attempt_lines]. destruct (code =? 0); reflexivity.
Qed.

Lemma attempt_lines_failure atts :
  existsb is_failure_line (flat_map (attempt_lines E) atts) = existsb attempt_failed atts.
Proof.
  induction atts as [|a atts IH]; [reflexivity|].
  cbn [flat_map existsb]. rewrite existsb_app, IH. f_equal.
  destruct a as [p|p code err]; [reflexivity|].
  cbn [attempt_lines attempt_failed]. destruct (code =? 0); reflexivity.
Qed.

Lemma attempts_all_ok atts :
  existsb attempt_failed atts = false ->
  flat_map (attempt_lines E) atts = flat_map installed_lines (map attempt_package atts) /\
  flat_map (attempt_calls E) atts = map (installer_call E) (map attempt_package atts).
Proof.
  induction atts as [|a atts IH]; [auto|].
  cbn [existsb]. intros H. apply orb_false_iff in H. destruct H as [Ha Hr].
  destruct (IH Hr) as [IH1 IH2].
  destruct a as [p|p code err]; [discriminate|].
  cbn [attempt_failed] in Ha. apply negb_false_iff in Ha.
  cbn [flat_map map attempt_lines attempt_calls attempt_package]. rewrite Ha, IH1, IH2.
  split; reflexivity.
Qed.

(** What one run of the loop printed and spawned, and what its result
    tells, however it ends. *)
Lemma install_loop_trace pkgs success st :
  exists out done,
    console (snd (install_loop E pkgs success st)) = console st ++ out /\
    spawned (snd (install_loop E pkgs success st)) =
      spawned st ++ map (installer_call E) done /\
    subsequence done pkgs /\
    forallb is_loop_line out = true /\
    (forall b, fst (install_loop E pkgs success st) = Ret b ->
       b = success && negb (existsb is_failure_line out) /\
       (b = true -> done = pkgs /\ out = flat_map installed_lines pkgs)).
Proof.
  destruct (install_loop_run pkgs success st)
    as [[atts [st' [Hl [Hrun [Hc Hs]]]]] |
        [e [st' [done0 [p [rest [atts [w [hdr [last
           [Hl [-> [Hrun [_ [Hc [Hh [Hs Hla]]]]]]]]]]]]]]]]];
    rewrite Hl; cbn [fst snd]; pose proof (loop_run_packages _ _ _ _ Hrun) as Hpk.
  - destruct (existsb attempt_failed atts) eqn:Hf.
    + destruct (attempt_calls_subsequence atts) as [done [Hd Hsub]].
      exists (flat_map (attempt_lines E) atts), done.
      split; [exact Hc|]. split; [now rewrite Hs, Hd|].
      split; [now rewrite <- Hpk|]. split; [apply attempt_lines_loop|].
      intros b [= <-]. rewrite attempt_lines_failure, Hf. simpl.
      rewrite andb_false_r. split; [reflexivity | discriminate].
    + destruct (attempts_all_ok atts Hf) as [Hlines Hcalls].
      exists (flat_map (attempt_lines E) atts), pkgs.
      split; [exact Hc|]. split; [now rewrite Hs, Hcalls, Hpk|].
      split; [apply subsequence_refl|]. split; [apply attempt_lines_loop|].
      intros b [= <-]. rewrite attempt_lines_failure, Hf.
      split; [reflexivity|]. intros _. split; [reflexivity|].
      now rewrite Hlines, Hpk.
  - destruct (attempt_calls_subsequence atts) as [done [Hd Hsub]].
    rewrite Hpk in Hsub.
    exists (flat_map (attempt_lines E) atts ++ hdr),
      (done ++ match last with [] => [] | _ :: _ => [p] end).
    split; [exact Hc|].
    split; [rewrite Hs, Hd, map_app; destruct Hla as [-> | ->]; reflexivity|].
    split.
    { apply subsequence_app; [exact Hsub|].
      destruct Hla as [-> | ->].
      - apply subsequence_nil.
      - apply subseq_keep. apply subsequence_nil. }
    split; [|discriminate].
    rewrite forallb_app, attempt_lines_loop. destruct Hh as [-> | ->]; reflexivity.
Qed.

Lemma check_dart_version_cases st r st1 :
  check_dart_version E st = (r, st1) ->
  console st1 = console st /\
  spawned st1 = spawned st ++ [(dart_version_cmd, None)] /\
  (r = Ret None \/
   (exists v, r = Ret (Some v) /\ version_string v) \/
   (exists e, r = Raise e /\ e <> FileNotFoundError /\
              fst (subprocess_run E dart_version_cmd None (world st)) = Raise e)).
Proof.
  intros H. destruct (check_dart_version_state _ _ _ _ H) as [Hc Hs].
  split; [exact Hc|]. split; [exact Hs|].
  destruct r as [[v|]|e].
  - right. left.
    destruct (check_dart_version_some _ _ _ _ H) as [out [err [_ Hre]]].
    destruct (re_search_some _ _ Hre) as [pre [suf [_ [[ws [post [_ [_ [Hv _]]]]] _]]]].
    exists v. auto.
  - now left.
  - right. right. exists e. split; [reflexivity|].
    unfold check_dart_version, bind, dart_version_cmd in H.
    destruct (run_command_cases (txt "dart") [txt "--version"] None st)
      as [_ [_ [_ Hr]]].
    destruct (run_command E [txt "dart"; txt "--version"] None st) as [[[[c o] x]|y] st'].
    + destruct (negb (c =? 0)); [discriminate|].
      destruct (re_search (o ++ x)); discriminate.
    + injection H as <- <-. cbn [fst] in Hr.
      destruct Hr as [[res [_ Habs]] | [[_ Habs] | [e' [Hres [Hne [= <-]]]]]];
        try discriminate.
      auto.
Qed.

(** The ways a run of [main] can go. *)
Lemma main_cases st r st2 :
  main E st = (r, st2) ->
  exists out sp,
    console st2 = console st ++ prelude_lines ++ out /\
    spawned st2 = spawned st ++ (dart_version_cmd, None) :: sp /\
    ((exists e,
        r = Raise e /\
        ((e <> FileNotFoundError /\
          fst (subprocess_run E dart_version_cmd None
                 (os_chdir E (repo_root E) (world st))) = Raise e) \/
         (exists v st1 d1 d2 d3,
            check_dart_version E (snd (prelude E st)) = (Ret (Some v), st1) /\
            v = d1 ++ dot :: d2 ++ dot :: d3 /\
            digit_run d1 /\ digit_run d2 /\ digit_run d3 /\
            ~ (within_limit d1 /\ within_limit d2 /\ within_limit d3) /\
            e = ValueError) \/
         (exists v st1 t done p rest atts w,
            check_dart_version E (snd (prelude E st)) = (Ret (Some v), st1) /\
            version_tuple v = Ret t /\ is_at_least t min_version = true /\
            packages = done ++ p :: rest /\
            loop_run E done (world st1) atts w /\
            raises_at E p w e))) \/
     (r = Ret 1 /\ out = [L_sdk_not_found] /\ sp = []) \/
     (exists v t,
        r = Ret 1 /\ version_tuple v = Ret t /\ tuple_lt t min_version = true /\
        out = [L_found v; L_warn_version v; L_upgrade_hint] /\ sp = []) \/
     (exists v t lo done,
        r = Ret 1 /\ version_tuple v = Ret t /\ tuple_lt t min_version = false /\
        out = [L_found v; L_blank; L_installing; L_blank] ++ lo ++ [L_blank; L_errors] /\
        forallb is_loop_line lo = true /\ existsb is_failure_line lo = true /\
        sp = map (installer_call E) done /\ subsequence done packages) \/
     (exists v t,
        r = Ret 0 /\ version_tuple v = Ret t /\ tuple_lt t min_version = false /\
        out = [L_found v; L_blank; L_installing; L_blank] ++
              flat_map installed_lines packages ++ success_lines /\
        sp = map (installer_call E) packages)).
Proof.
  rewrite main_after_prelude, prelude_eq. cbn [snd]. unfold bind at 1.
  destruct (check_dart_version E _) as [rc st1] eqn:Hcheck.
  destruct (check_dart_version_cases _ _ _ Hcheck) as [Hc1 [Hs1 Hcase]].
  cbn [world console spawned] in Hc1, Hs1, Hcase.
  destruct Hcase as [-> | [[v [-> Hv]] | [e [-> [Hne He]]]]].
  - (* no version *)
    intros [= <- <-]. exists [L_sdk_not_found], []. simpl.
    split; [rewrite Hc1, <- app_assoc; reflexivity|]. split; [exact Hs1|]. auto.
  - unfold bind at 1. unfold print at 1. unfold bind at 1. unfold lift.
    destruct (version_string_tuple _ Hv)
      as [d1 [d2 [d3 [Ev [R1 [R2 [R3 [[L1 [L2 [L3 Ht]]] | [Hlim Ht]]]]]]]]]; rewrite Ht.
    + destruct (tuple_lt [decimal d1; decimal d2; decimal d3] min_version) eqn:Hlt.
      * (* version too low *)
        intros [= <- <-].
        exists [L_found v; L_warn_version v; L_upgrade_hint], []. simpl.
        split; [rewrite Hc1, <- !app_assoc; reflexivity|]. split; [exact Hs1|].
        right. right. left. exists v, [decimal d1; decimal d2; decimal d3]. auto.
      * do 3 (unfold bind at 1; unfold print at 1). unfold bind at 1.
        match goal with
        | |- context [install_loop E packages true ?s] =>
            destruct (install_loop_trace packages true s)
              as [lo [done [Hc [Hs [Hsub [Hl Hret]]]]]];
            destruct (install_loop_run packages true s)
              as [[atts [st' [Hloop _]]] |
                  [e [st' [done0 [p [rest [atts [w [hdr [last
                     [Hloop [Hpk [Hrun [Hraise _]]]]]]]]]]]]]];
            rewrite Hloop in *
        end; cbn [fst snd world console spawned] in Hc, Hs, Hret.
        -- destruct (Hret _ eq_refl) as [Hb Hall]. simpl in Hb.
           destruct (negb (existsb attempt_failed atts)) eqn:Hok; cbn [andb] in *.
           ++ (* every package installed *)
              destruct (Hall eq_refl) as [-> ->].
              intros [= <- <-].
              exists ([L_found v; L_blank; L_installing; L_blank] ++
                      flat_map installed_lines packages ++ success_lines),
                (map (installer_call E) packages).
              split; [cbn [console]; rewrite Hc, Hc1;
                      unfold success_lines, prelude_lines;
                      rewrite <- !app_assoc; reflexivity|].
              split; [cbn [spawned]; rewrite Hs, Hs1, <- app_assoc; reflexivity|].
              right. right. right. right.
              exists v, [decimal d1; decimal d2; decimal d3]. auto.
           ++ (* some package failed *)
              intros [= <- <-].
              exists ([L_found v; L_blank; L_installing; L_blank] ++ lo ++
                      [L_blank; L_errors]),
                (map (installer_call E) done).
              split; [cbn [console]; rewrite Hc, Hc1; unfold prelude_lines;
                      rewrite <- !app_assoc; reflexivity|].
              split; [cbn [spawned]; rewrite Hs, Hs1, <- app_assoc; reflexivity|].
              right. right. right. left.
              exists v, [decimal d1; decimal d2; decimal d3], lo, done.
              repeat (split; [assumption || reflexivity|]).
              split; [|split; [reflexivity | assumption]].
              symmetry in Hb. now apply negb_false_iff in Hb.
        -- (* the loop raised *)
           cbn [world] in Hrun. intros [= <- <-].
           exists ([L_found v; L_blank; L_installing; L_blank] ++ lo),
             (map (installer_call E) done).
           split; [rewrite Hc, Hc1; unfold prelude_lines;
                   rewrite <- !app_assoc; reflexivity|].
           split; [rewrite Hs, Hs1, <- app_assoc; reflexivity|].
           left. exists e. split; [reflexivity|]. right. right.
           exists v, st1, [decimal d1; decimal d2; decimal d3], done0, p, rest, atts, w.
           split; [reflexivity|]. split; [exact Ht|].
           split; [unfold is_at_least; now rewrite Hlt|]. auto.
    + (* the conversion raised *)
      intros [= <- <-]. exists [L_found v], []. simpl.
      split; [rewrite Hc1, <- !app_assoc; reflexivity|]. split; [exact Hs1|].
      left. exists ValueError. split; [reflexivity|]. right. left.
      exists v, st1, d1, d2, d3. auto 10.
  - (* the query could not be started *)
    intros [= <- <-]. exists [], []. rewrite app_nil_r.
    split; [exact Hc1|]. split; [exact Hs1|]. left. exists e. auto.
Qed.



(** X11.  Whatever the environment does and however the loop ends,
    the commands it starts are installer runs in package directories,
    for packages of the list, in the order of the list and at most
    once per package. *)
Theorem install_loop_spawns_in_order (pkgs : list text) (success : bool)
  (st : state (World E)) :
  exists done,
    subsequence done pkgs /\
    spawned (snd (install_loop E pkgs success st)) =
      spawned st ++ map (installer_call E) done.
Proof.
  destruct (install_loop_trace pkgs success st) as [out [done [_ [Hs [Hsub _]]]]].
  now exists done.
Qed.

(** X12.  The loop returns [true] only if it was started with [true]
    and every package was installed: then it has started the installer
    once for each package, in order, and printed the two success lines
    of each package and nothing else. *)
Theorem install_loop_true (pkgs : list text) (success : bool)
  (st st' : state (World E)) :
  install_loop E pkgs success st = (Ret true, st') ->
  success = true /\
  spawned st' = spawned st ++ map (installer_call E) pkgs /\
  console st' = console st ++ flat_map installed_lines pkgs.
Proof.
  intros H.
  destruct (install_loop_trace pkgs success st) as [out [done [Hc [Hs [_ [_ Hret]]]]]].
  rewrite H in Hc, Hs, Hret. cbn [fst snd] in Hc, Hs, Hret.
  destruct (Hret true eq_refl) as [Hb Hall]. destruct (Hall eq_refl) as [-> ->].
  split; [|split; assumption].
  symmetry in Hb. now apply andb_true_iff in Hb.
Qed.



(** X15.  Exit status 0 has one meaning: the probe found a version
    that passed the check, the installer was started once for each of
    the three packages, in order, after the version query, and the
    console shows the success lines of every package followed by the
    closing lines. *)
Theorem main_success_transcript (st st2 : state (World E)) :
  main E st = (Ret 0, st2) ->
  exists v t,
    version_tuple v = Ret t /\ is_at_least t min_version = true /\
    spawned st2 =
      spawned st ++ (dart_version_cmd, None) :: map (installer_call E) packages /\
    console st2 =
      console st ++ prelude_lines ++ [L_found v; L_blank; L_installing; L_blank] ++
      flat_map installed_lines packages ++ success_lines.
Proof.
  intros H. destruct (main_cases _ _ _ H) as [out [sp [Hc [Hs Hcase]]]].
  destruct Hcase as [[e [Habs _]] | [[Habs _] | [[v [t [Habs _]]] |
                    [[v [t [lo [done [Habs _]]]]] | [v [t [_ [Ht [Hlt [-> ->]]]]]]]]]];
    try discriminate.
  exists v, t. unfold is_at_least. rewrite Hlt. auto.
Qed.

(** X16.  When [main] returns, the exit status is 0 or 1 and the
    console tells which: the completion line is printed exactly for
    status 0, and one of the lines for a missing SDK, an old SDK or a
    setup with errors exactly for status 1. *)
Theorem main_exit_status (st st2 : state (World E)) (status : Z) :
  main E st = (Ret status, st2) ->
  exists out,
    console st2 = console st ++ out /\
    (status = 0 \/ status = 1) /\
    (status = 0 <-> existsb is_complete_line out = true) /\
    (status = 1 <-> existsb is_error_verdict out = true).
Proof.
  assert (Hloop : forall lo, forallb is_loop_line lo = true ->
            existsb is_complete_line lo = false /\ existsb is_error_verdict lo = false).
  { induction lo as [|l lo IH]; simpl; [auto|].
    intros Hl. apply andb_true_iff in Hl. destruct Hl as [Hl1 Hl2].
    destruct (IH Hl2) as [-> ->]. destruct l; try discriminate; auto. }
  intros H. destruct (main_cases _ _ _ H) as [out [sp [Hc [_ Hcase]]]].
  exists (prelude_lines ++ out). split; [exact Hc|].
  destruct Hcase as [[e [Habs _]] | [[[= ->] [-> _]] | [[v [t [[= ->] [_ [_ [-> _]]]]]] |
     [[v [t [lo [done [[= ->] [_ [_ [-> [Hl _]]]]]]]]] | [v [t [[= ->] [_ [_ [-> _]]]]]]]]]];
    try discriminate.
  - simpl. repeat split; auto; discriminate.
  - simpl. repeat split; auto; discriminate.
  - destruct (Hloop lo Hl) as [H1 H2].
    rewrite !existsb_app, H1, H2. simpl. repeat split; auto; discriminate.
  - simpl. repeat split; auto; discriminate.
Qed.


End TraceProperties.

(** ** Instances *)

Lemma is_at_least_trans_witness :
  is_at_least [3; 11] [3; 10; 5] = true /\ is_at_least [3; 10; 5] min_version = true /\
  is_at_least [3; 11] min_version = true.
Proof.
  split; [reflexivity|]. split; [reflexivity|].
  exact (is_at_least_trans [3; 11] [3; 10; 5] min_version eq_refl eq_refl).
Defined.

Lemma version_tuple_length_witness :
  version_tuple (txt "3.-1.2") = Ret [3; -1; 2] /\
  length [3; -1; 2] = S (count_occ ascii_dec (txt "3.-1.2") dot).
Proof.
  split; [reflexivity|].
  exact (version_tuple_length (txt "3.-1.2") [3; -1; 2] eq_refl).
Defined.

Lemma version_tuple_join_witness :
  [txt "3"; txt "10"; txt "1"] <> [] /\
  Forall digit_run [txt "3"; txt "10"; txt "1"] /\
  (Forall within_limit [txt "3"; txt "10"; txt "1"] ->
   version_tuple (join_dot [txt "3"; txt "10"; txt "1"])
     = Ret (map decimal [txt "3"; txt "10"; txt "1"])) /\
  (Forall within_limit (map (cons zero) [txt "3"; txt "10"; txt "1"]) ->
   version_tuple (join_dot (map (cons zero) [txt "3"; txt "10"; txt "1"]))
     = Ret (map decimal [txt "3"; txt "10"; txt "1"])) /\
  (~ Forall within_limit [txt "3"; txt "10"; txt "1"] ->
   version_tuple (join_dot [txt "3"; txt "10"; txt "1"]) = Raise ValueError).
Proof.
  assert (Hne : [txt "3"; txt "10"; txt "1"] <> []) by discriminate.
  assert (Hall : Forall digit_run [txt "3"; txt "10"; txt "1"])
    by (unfold txt; simpl; digit_runs).
  split; [exact Hne|]. split; [exact Hall|].
  exact (version_tuple_join [txt "3"; txt "10"; txt "1"] Hne Hall).
Defined.

Lemma spaces_one : spaces (txt " ").
Proof. repeat constructor. Defined.

Lemma version_string_3_10_4 : version_string (txt "3.10.4").
Proof. exists (txt "3"), (txt "10"), (txt "4"). split; [reflexivity|]. unfold txt. simpl. repeat split; digit_runs. Defined.

Lemma check_dart_version_banner_witness :
  run_command env_dev_sdk dart_version_cmd None demo_start
  = (Ret (0, [], txt "Dart SDK version: 3.10.4-dev.1"),
     mkState tt [] [(dart_version_cmd, None)]) /\
  [] ++ txt "Dart SDK version: 3.10.4-dev.1"
  = version_label ++ txt " " ++ txt "3.10.4" ++ txt "-dev.1" /\
  spaces (txt " ") /\ version_string (txt "3.10.4") /\ not_digit_first (txt "-dev.1") /\
  check_dart_version env_dev_sdk demo_start
  = (Ret (Some (txt "3.10.4")), mkState tt [] [(dart_version_cmd, None)]).
Proof.
  split; [reflexivity|]. split; [reflexivity|]. split; [exact spaces_one|].
  split; [exact version_string_3_10_4|]. split; [reflexivity|].
  exact (check_dart_version_banner env_dev_sdk demo_start _ []
           (txt "Dart SDK version: 3.10.4-dev.1")
           (txt " ") (txt "3.10.4") (txt "-dev.1") eq_refl eq_refl
           spaces_one version_string_3_10_4 eq_refl).
Defined.


Lemma install_loop_true_witness :
  install_loop env_ok packages true demo_start = (Ret true, env_ok_loop_end) /\
  true = true /\
  spawned env_ok_loop_end = spawned demo_start ++ map (installer_call env_ok) packages /\
  console env_ok_loop_end = console demo_start ++ flat_map installed_lines packages.
Proof.
  assert (H : install_loop env_ok packages true demo_start = (Ret true, env_ok_loop_end))
    by (vm_compute; reflexivity).
  split; [exact H|].
  exact (install_loop_true env_ok packages true demo_start env_ok_loop_end H).
Defined.




Lemma main_success_transcript_witness :
  main env_ok demo_start = (Ret 0, env_ok_end) /\
  exists v t,
    version_tuple v = Ret t /\ is_at_least t min_version = true /\
    spawned env_ok_end =
      spawned demo_start ++ (dart_version_cmd, None) :: map (installer_call env_ok) packages /\
    console env_ok_end =
      console demo_start ++ prelude_lines ++ [L_found v; L_blank; L_installing; L_blank] ++
      flat_map installed_lines packages ++ success_lines.
Proof.
  assert (H : main env_ok demo_start = (Ret 0, env_ok_end)) by (vm_compute; reflexivity).
  split; [exact H|].
  exact (main_success_transcript env_ok demo_start env_ok_end H).
Defined.

Lemma main_exit_status_witness :
  main env_missing_dir demo_start = (Ret 1, env_missing_dir_end) /\
  exists out,
    console env_missing_dir_end = console demo_start ++ out /\
    (1 = 0 \/ 1 = 1) /\
    (1 = 0 <-> existsb is_complete_line out = true) /\
    (1 = 1 <-> existsb is_error_verdict out = true).
Proof.
  assert (H : main env_missing_dir demo_start = (Ret 1, env_missing_dir_end))
    by (vm_compute; reflexivity).
  split; [exact H|].
  exact (main_exit_status env_missing_dir demo_start env_missing_dir_end 1 H).
Defined.




(** ** Tuples of unequal length *)









